(** * Interactive cubic Bezier curve with spring physics (bezier.js)

    A shallow embedding of [src/bezier.js]: the [Vector2] value type, the
    [ControlPoint] spring-damper integrator, the [BezierCurve] evaluation and
    sampling code and the [BezierApp] input handlers, followed by the
    properties of the specification that are about them.

    Numbers.  A JavaScript number is an IEEE-754 double.  The main
    embedding models it as a real number ([R]), which keeps the structure of
    the code (which fields are read and written, in which order, under which
    guard) and the order between values, but computes without rounding.  The
    statements over [R] are therefore those that rounding does not break:
    equalities between values the code copies or that it computes from
    operands that are exact, inequalities that rounding preserves, and
    bounds that leave an allowance for it ([slack]).  Where
    a property holds in exact arithmetic only, it is said so, and module
    [Double] runs the same arithmetic on binary64 numbers to show how far the
    code departs from it.  NaN and the infinities are outside both models.

    Objects.  Every [Vector2] the code stores in a field is freshly
    allocated ([new Vector2], [copy], or the result of an arithmetic method),
    so no two fields ever share a vector and vectors are modelled as values.
    The four [ControlPoint] objects are shared between [BezierApp] ([p0] ..
    [p3], [dragged]) and [BezierCurve.points]: the model keeps them once, in
    the curve, and represents the references to them by [PointId]. *)

From Stdlib Require Import Reals Lra Psatz.
From Stdlib Require Import List Bool Arith Lia.
From Stdlib Require String.
From Stdlib Require PrimFloat.
Import ListNotations.
Import String.StringSyntax.
Delimit Scope string_scope with string.

Open Scope R_scope.

(* ================================================================= *)
(** ** Vector math *)

Module Vector2.

Record t : Type := new { x : R; y : R }.

Definition add (this v : t) : t := new (x this + x v) (y this + y v).

Definition subtract (this v : t) : t := new (x this - x v) (y this - y v).

Definition multiply (this : t) (s : R) : t := new (x this * s) (y this * s).

Definition length (this : t) : R :=
  sqrt (x this * x this + y this * y this).

(** [len === 0 ? new Vector2(0, 0) : new Vector2(this.x / len, this.y / len)] *)
Definition normalize (this : t) : t :=
  let len := length this in
  if Req_dec_T len 0 then new 0 0 else new (x this / len) (y this / len).

Definition distanceTo (this v : t) : R := length (subtract this v).

Definition copy (this : t) : t := new (x this) (y this).

End Vector2.

(* ================================================================= *)
(** ** The drawing context *)

Module Canvas.

(** The calls the code makes on the 2D context [ctx], and the assignments
    to its properties.  A drawing method is modelled by the sequence of
    calls it makes. *)
Inductive Call : Type :=
| beginPath
| arc (x y radius startAngle endAngle : R)
| fill
| stroke
| moveTo (x y : R)
| lineTo (x y : R)
| setLineDash (segments : list R)
| fillStyle (value : String.string)
| strokeStyle (value : String.string)
| lineWidth (value : R).

(** How a drawing method ends: it returns, or an expression in it throws a
    [TypeError]; either way after the calls made so far. *)
Inductive Outcome : Type :=
| Returned (calls : list Call)
| TypeError (calls : list Call).

End Canvas.

(* ================================================================= *)
(** ** Physics control point *)

Module ControlPoint.

Record t : Type := mk {
  position : Vector2.t;
  velocity : Vector2.t;
  target : Vector2.t;
  isFixed : bool;
  isDragging : bool;
  radius : R
}.

(** [constructor(x, y, fixed = false)] *)
Definition new (x y : R) (fixed : bool) : t :=
  {| position := Vector2.new x y;
     velocity := Vector2.new 0 0;
     target := Vector2.new x y;
     isFixed := fixed;
     isDragging := false;
     radius := 10 |}.

(** Field assignments [this.position = v], [this.velocity = v], ... *)
Definition set_position (this : t) (v : Vector2.t) : t :=
  mk v (velocity this) (target this) (isFixed this) (isDragging this)
     (radius this).

Definition set_velocity (this : t) (v : Vector2.t) : t :=
  mk (position this) v (target this) (isFixed this) (isDragging this)
     (radius this).

Definition set_target (this : t) (v : Vector2.t) : t :=
  mk (position this) (velocity this) v (isFixed this) (isDragging this)
     (radius this).

Definition set_isDragging (this : t) (b : bool) : t :=
  mk (position this) (velocity this) (target this) (isFixed this) b
     (radius this).

(** The velocity decay factor of the last line of [applyPhysics]. *)
Definition decay : R := 0.99.

(** [applyPhysics(stiffness, damping, dt)]: the object after the call. *)
Definition applyPhysics (stiffness damping dt : R) (this : t) : t :=
  if isFixed this || isDragging this then this
  else
    let springForce :=
      Vector2.multiply (Vector2.subtract (target this) (position this))
                       stiffness in
    let dampingForce := Vector2.multiply (velocity this) (- damping) in
    let acceleration := Vector2.add springForce dampingForce in
    let this := set_velocity this
      (Vector2.add (velocity this) (Vector2.multiply acceleration dt)) in
    let this := set_position this
      (Vector2.add (position this) (Vector2.multiply (velocity this) dt)) in
    set_velocity this (Vector2.multiply (velocity this) decay).

(** [contains(point)]: [this.position.distanceTo(point) <= this.radius] *)
Definition contains (this : t) (point : Vector2.t) : bool :=
  if Rle_dec (Vector2.distanceTo (position this) point) (radius this)
  then true else false.

(** [draw(ctx)]: the disc of the point and, for a free point that is not
    being dragged, the small disc of its target. *)
Definition draw (this : t) : list Canvas.Call :=
  [ Canvas.beginPath;
    Canvas.arc (Vector2.x (position this)) (Vector2.y (position this))
               (radius this) 0 (PI * 2);
    Canvas.fillStyle
      (if isDragging this then "#ff4081"%string
       else if isFixed this then "#64ffda"%string else "#ffffff"%string);
    Canvas.fill;
    Canvas.strokeStyle "#ffffff"%string;
    Canvas.lineWidth 2;
    Canvas.stroke ]
  ++ (if negb (isFixed this) && negb (isDragging this)
      then [ Canvas.beginPath;
             Canvas.arc (Vector2.x (target this)) (Vector2.y (target this))
                        3 0 (PI * 2);
             Canvas.fillStyle "rgba(255, 64, 129, 0.5)"%string;
             Canvas.fill ]
      else []).

(** [n] successive calls of [applyPhysics] with the same arguments. *)
Definition steps (stiffness damping dt : R) (n : nat) (this : t) : t :=
  Nat.iter n (applyPhysics stiffness damping dt) this.

End ControlPoint.

(* ================================================================= *)
(** ** The four shared control points *)

(** A reference to one of the four [ControlPoint] objects: its index in
    [BezierCurve.points]. *)
Inductive PointId : Type := P0 | P1 | P2 | P3.

Module Points.

(** The array [[p0, p1, p2, p3]] built by the [BezierCurve] constructor; it
    is never resized. *)
Record t : Type := mk {
  pt0 : ControlPoint.t;
  pt1 : ControlPoint.t;
  pt2 : ControlPoint.t;
  pt3 : ControlPoint.t
}.

Definition get (i : PointId) (ps : t) : ControlPoint.t :=
  match i with
  | P0 => pt0 ps
  | P1 => pt1 ps
  | P2 => pt2 ps
  | P3 => pt3 ps
  end.

(** The effect on the array of mutating the object that [i] refers to. *)
Definition set (i : PointId) (c : ControlPoint.t) (ps : t) : t :=
  match i with
  | P0 => mk c (pt1 ps) (pt2 ps) (pt3 ps)
  | P1 => mk (pt0 ps) c (pt2 ps) (pt3 ps)
  | P2 => mk (pt0 ps) (pt1 ps) c (pt3 ps)
  | P3 => mk (pt0 ps) (pt1 ps) (pt2 ps) c
  end.

(** Iteration order of [for (const point of points)]. *)
Definition ids : list PointId := [P0; P1; P2; P3].

End Points.

(* ================================================================= *)
(** ** Bezier curve math *)

Module BezierCurve.

(** An entry of [this.tangents]: [{ point: point, vector: normalized }]. *)
Record Tangent : Type := mkTangent {
  point : Vector2.t;
  vector : Vector2.t
}.

Record t : Type := mk {
  points : Points.t;
  curve : list Vector2.t;
  tangents : list Tangent;
  segments : nat
}.

(** [constructor(p0, p1, p2, p3)] *)
Definition new (p0 p1 p2 p3 : ControlPoint.t) : t :=
  {| points := Points.mk p0 p1 p2 p3;
     curve := [];
     tangents := [];
     segments := 100 |}.

Definition set_points (this : t) (ps : Points.t) : t :=
  mk ps (curve this) (tangents this) (segments this).

Definition set_curve (this : t) (c : list Vector2.t) : t :=
  mk (points this) c (tangents this) (segments this).

Definition set_tangents (this : t) (ts : list Tangent) : t :=
  mk (points this) (curve this) ts (segments this).

(** [this.points[i].position] *)
Definition pos (this : t) (i : PointId) : Vector2.t :=
  ControlPoint.position (Points.get i (points this)).

Definition calculatePoint (this : t) (t : R) : Vector2.t :=
  let u := 1 - t in
  let tt := t * t in
  let uu := u * u in
  let uuu := uu * u in
  let ttt := tt * t in
  let p0 := Vector2.multiply (pos this P0) uuu in
  let p1 := Vector2.multiply (pos this P1) (3 * uu * t) in
  let p2 := Vector2.multiply (pos this P2) (3 * u * tt) in
  let p3 := Vector2.multiply (pos this P3) ttt in
  Vector2.add (Vector2.add (Vector2.add p0 p1) p2) p3.

Definition calculateTangent (this : t) (t : R) : Vector2.t :=
  let u := 1 - t in
  let p0 := pos this P0 in
  let p1 := pos this P1 in
  let p2 := pos this P2 in
  let p3 := pos this P3 in
  let term1 := Vector2.multiply (Vector2.subtract p1 p0) (3 * u * u) in
  let term2 := Vector2.multiply (Vector2.subtract p2 p1) (6 * u * t) in
  let term3 := Vector2.multiply (Vector2.subtract p3 p2) (3 * t * t) in
  Vector2.add (Vector2.add term1 term2) term3.

(** The body of the loop of [update] at counter [i]. *)
Definition update_body (this : t) (i : nat) : t :=
  let t := INR i / INR (segments this) in
  let this := set_curve this (curve this ++ [calculatePoint this t]) in
  if (i mod 10 =? 0)%nat then
    let tangent := calculateTangent this t in
    let normalized := Vector2.normalize tangent in
    let point := calculatePoint this t in
    set_tangents this (tangents this ++ [mkTangent point normalized])
  else this.

(** [update()]: both containers are emptied, then the loop
    [for (let i = 0; i <= this.segments; i++)] runs. *)
Definition update (this : t) : t :=
  fold_left update_body (seq 0 (S (segments this)))
            (set_tangents (set_curve this []) []).

(** The body of the loop [for (const tangent of this.tangents)] of [draw]:
    the shaft of an arrow and the two strokes of its head.  [atan2] stands
    for [Math.atan2]. *)
Definition draw_arrow (atan2 : R -> R -> R) (tangent : Tangent)
  : list Canvas.Call :=
  let start := point tangent in
  let end_ := Vector2.add start (Vector2.multiply (vector tangent) 30) in
  let angle :=
    atan2 (Vector2.y end_ - Vector2.y start)
          (Vector2.x end_ - Vector2.x start) in
  let size := 8 in
  [ Canvas.beginPath;
    Canvas.moveTo (Vector2.x start) (Vector2.y start);
    Canvas.lineTo (Vector2.x end_) (Vector2.y end_);
    Canvas.stroke;
    Canvas.beginPath;
    Canvas.moveTo (Vector2.x end_) (Vector2.y end_);
    Canvas.lineTo (Vector2.x end_ - size * cos (angle - PI / 6))
                  (Vector2.y end_ - size * sin (angle - PI / 6));
    Canvas.moveTo (Vector2.x end_) (Vector2.y end_);
    Canvas.lineTo (Vector2.x end_ - size * cos (angle + PI / 6))
                  (Vector2.y end_ - size * sin (angle + PI / 6));
    Canvas.stroke ].

(** [draw(ctx)]: the dashed control polygon, the polyline through
    [this.curve], an arrow per entry of [this.tangents], then the four
    control points.  [this.curve[0].x] throws when [this.curve] is empty. *)
Definition draw (atan2 : R -> R -> R) (this : t) : Canvas.Outcome :=
  let polygon :=
    [ Canvas.strokeStyle "rgba(100, 255, 218, 0.3)"%string;
      Canvas.lineWidth 1;
      Canvas.setLineDash [5; 3];
      Canvas.beginPath;
      Canvas.moveTo (Vector2.x (pos this P0)) (Vector2.y (pos this P0)) ]
    ++ map (fun i => Canvas.lineTo (Vector2.x (pos this i))
                                   (Vector2.y (pos this i)))
           [P1; P2; P3]
    ++ [ Canvas.stroke;
         Canvas.setLineDash [];
         Canvas.strokeStyle "#64ffda"%string;
         Canvas.lineWidth 3;
         Canvas.beginPath ] in
  match curve this with
  | [] => Canvas.TypeError polygon
  | first :: rest =>
    Canvas.Returned
      (polygon
       ++ [ Canvas.moveTo (Vector2.x first) (Vector2.y first) ]
       ++ map (fun p => Canvas.lineTo (Vector2.x p) (Vector2.y p)) rest
       ++ [ Canvas.stroke;
            Canvas.strokeStyle "#ff4081"%string;
            Canvas.lineWidth 2 ]
       ++ flat_map (draw_arrow atan2) (tangents this)
       ++ flat_map (fun i => ControlPoint.draw (Points.get i (points this)))
                   Points.ids)
  end.

End BezierCurve.

(* ================================================================= *)
(** ** Main app *)

Module BezierApp.

Inductive Mode : Type := mouse | motion.

(** The two properties of the canvas element that the code reads. *)
Record Canvas : Type := mkCanvas { width : R; height : R }.

Record Physics : Type := mkPhysics { stiffness : R; damping : R }.

(** The fields of a [BezierApp] that carry state.  [p0] .. [p3] are the
    objects of [curve.points]; [dragged] is [null] or a reference to one of
    them. *)
Record t : Type := mk {
  canvas : Canvas;
  curve : BezierCurve.t;
  physics : Physics;
  mode : Mode;
  dragged : option PointId;
  mousePos : Vector2.t;
  lastTime : R;
  fps : R
}.

(** The object a reference points to. *)
Definition point (i : PointId) (this : t) : ControlPoint.t :=
  Points.get i (BezierCurve.points (curve this)).

Definition p0 : t -> ControlPoint.t := point P0.
Definition p1 : t -> ControlPoint.t := point P1.
Definition p2 : t -> ControlPoint.t := point P2.
Definition p3 : t -> ControlPoint.t := point P3.

(** Mutation of the object a reference points to: seen through [p0] ..
    [p3], [dragged] and [curve.points] alike. *)
Definition set_point (i : PointId) (c : ControlPoint.t) (this : t) : t :=
  mk (canvas this)
     (BezierCurve.set_points (curve this)
        (Points.set i c (BezierCurve.points (curve this))))
     (physics this) (mode this) (dragged this) (mousePos this)
     (lastTime this) (fps this).

Definition set_curve (this : t) (c : BezierCurve.t) : t :=
  mk (canvas this) c (physics this) (mode this) (dragged this)
     (mousePos this) (lastTime this) (fps this).

Definition set_physics (this : t) (p : Physics) : t :=
  mk (canvas this) (curve this) p (mode this) (dragged this)
     (mousePos this) (lastTime this) (fps this).

Definition set_mode (this : t) (m : Mode) : t :=
  mk (canvas this) (curve this) (physics this) m (dragged this)
     (mousePos this) (lastTime this) (fps this).

Definition set_dragged (this : t) (d : option PointId) : t :=
  mk (canvas this) (curve this) (physics this) (mode this) d
     (mousePos this) (lastTime this) (fps this).

Definition set_mousePos (this : t) (v : Vector2.t) : t :=
  mk (canvas this) (curve this) (physics this) (mode this) (dragged this)
     v (lastTime this) (fps this).

Definition set_lastTime (this : t) (r : R) : t :=
  mk (canvas this) (curve this) (physics this) (mode this) (dragged this)
     (mousePos this) r (fps this).

(** [this.pI.target.x] and [this.pI.target.y], read and assigned. *)
Definition target_x (i : PointId) (this : t) : R :=
  Vector2.x (ControlPoint.target (point i this)).

Definition target_y (i : PointId) (this : t) : R :=
  Vector2.y (ControlPoint.target (point i this)).

Definition set_target_x (i : PointId) (v : R) (this : t) : t :=
  set_point i
    (ControlPoint.set_target (point i this)
       (Vector2.new v (target_y i this)))
    this.

Definition set_target_y (i : PointId) (v : R) (this : t) : t :=
  set_point i
    (ControlPoint.set_target (point i this)
       (Vector2.new (target_x i this) v))
    this.

(** [constructor()]: the state once the constructor has run.  Registering
    the listeners and the first animation frame changes no field. *)
Definition new : t :=
  let canvas := mkCanvas 800 500 in
  let p0 := ControlPoint.new (width canvas * 0.2) (height canvas * 0.5) true in
  let p1 := ControlPoint.new (width canvas * 0.4) (height canvas * 0.3) false in
  let p2 := ControlPoint.new (width canvas * 0.6) (height canvas * 0.7) false in
  let p3 := ControlPoint.new (width canvas * 0.8) (height canvas * 0.5) true in
  {| canvas := canvas;
     curve := BezierCurve.new p0 p1 p2 p3;
     physics := mkPhysics 0.08 0.92;
     mode := mouse;
     dragged := None;
     mousePos := Vector2.new (width canvas / 2) (height canvas / 2);
     lastTime := 0;
     fps := 60 |}.

(** *** Input *)

(** [canvas.getBoundingClientRect()] and the fields of a mouse event that
    the handlers read. *)
Record DOMRect : Type := mkRect { left : R; top : R }.
Record MouseEvent : Type := mkMouse { clientX : R; clientY : R }.

(** A [devicemotion] event: [rotationRate] may be [null], and so may its
    [beta] and [gamma]. *)
Record RotationRate : Type := mkRate { beta : option R; gamma : option R }.
Record DeviceMotionEvent : Type :=
  mkMotion { rotationRate : option RotationRate }.

(** [v || 0] for [v] a number or [null]. *)
Definition or0 (v : option R) : R :=
  match v with Some r => r | None => 0 end.

Definition clampTargets (this : t) : t :=
  let margin := 50 in
  let w := width (canvas this) in
  let h := height (canvas this) in
  let this :=
    set_target_x P1 (Rmax margin (Rmin (target_x P1 this) (w - margin))) this in
  let this :=
    set_target_y P1 (Rmax margin (Rmin (target_y P1 this) (h - margin))) this in
  let this :=
    set_target_x P2 (Rmax margin (Rmin (target_x P2 this) (w - margin))) this in
  let this :=
    set_target_y P2 (Rmax margin (Rmin (target_y P2 this) (h - margin))) this in
  this.

Definition handleMotion (e : DeviceMotionEvent) (this : t) : t :=
  match mode this with
  | mouse => this
  | motion =>
    match rotationRate e with
    | None => this
    | Some rate =>
      let beta := or0 (beta rate) in
      let gamma := or0 (gamma rate) in
      let sens := 8 in
      let this := set_target_x P1 (target_x P1 this + gamma * sens) this in
      let this := set_target_y P1 (target_y P1 this + beta * sens) this in
      let this :=
        set_target_x P2 (target_x P2 this - gamma * sens * 0.7) this in
      let this :=
        set_target_y P2 (target_y P2 this - beta * sens * 0.7) this in
      clampTargets this
    end
  end.

(** The loop of [mouseDown] over the points still to visit; it stops at the
    first free point that contains [pos]. *)
Fixpoint mouseDown_loop (ids : list PointId) (pos : Vector2.t) (this : t)
  : t :=
  match ids with
  | [] => this
  | i :: rest =>
    if negb (ControlPoint.isFixed (point i this))
       && ControlPoint.contains (point i this) pos
    then
      let this := set_dragged this (Some i) in
      set_point i (ControlPoint.set_isDragging (point i this) true) this
    else mouseDown_loop rest pos this
  end.

Definition mouseDown (rect : DOMRect) (e : MouseEvent) (this : t) : t :=
  let pos := Vector2.new (clientX e - left rect) (clientY e - top rect) in
  mouseDown_loop Points.ids pos this.

Definition mouseMove (rect : DOMRect) (e : MouseEvent) (this : t) : t :=
  let pos := Vector2.new (clientX e - left rect) (clientY e - top rect) in
  let this := set_mousePos this (Vector2.copy pos) in
  match dragged this with
  | Some d =>
    let this :=
      set_point d (ControlPoint.set_position (point d this)
                                             (Vector2.copy pos)) this in
    let this :=
      set_point d (ControlPoint.set_target (point d this)
                                           (Vector2.copy pos)) this in
    set_point d (ControlPoint.set_velocity (point d this)
                                           (Vector2.new 0 0)) this
  | None =>
    match mode this with
    | mouse =>
      let center :=
        Vector2.new (width (canvas this) / 2) (height (canvas this) / 2) in
      let offset :=
        Vector2.multiply (Vector2.subtract pos center) 0.005 in
      let this :=
        set_point P1
          (ControlPoint.set_target (p1 this)
             (Vector2.new
                (width (canvas this) * 0.4 + Vector2.x offset * 200)
                (height (canvas this) * 0.3 + Vector2.y offset * 200)))
          this in
      let this :=
        set_point P2
          (ControlPoint.set_target (p2 this)
             (Vector2.new
                (width (canvas this) * 0.6 - Vector2.x offset * 150)
                (height (canvas this) * 0.7 - Vector2.y offset * 150)))
          this in
      clampTargets this
    | motion => this
    end
  end.

Definition mouseUp (this : t) : t :=
  match dragged this with
  | Some d =>
    let this :=
      set_point d (ControlPoint.set_isDragging (point d this) false) this in
    set_dragged this None
  | None => this
  end.

(** [switchMode()]; the two labels it rewrites are not state of the app. *)
Definition switchMode (this : t) : t :=
  set_mode this (match mode this with mouse => motion | motion => mouse end).

Definition reset (this : t) : t :=
  let w := width (canvas this) in
  let h := height (canvas this) in
  let this :=
    set_point P1 (ControlPoint.set_position (p1 this)
                    (Vector2.new (w * 0.4) (h * 0.3))) this in
  let this :=
    set_point P1 (ControlPoint.set_target (p1 this)
                    (Vector2.copy (ControlPoint.position (p1 this)))) this in
  let this :=
    set_point P1 (ControlPoint.set_velocity (p1 this) (Vector2.new 0 0))
              this in
  let this :=
    set_point P2 (ControlPoint.set_position (p2 this)
                    (Vector2.new (w * 0.6) (h * 0.7))) this in
  let this :=
    set_point P2 (ControlPoint.set_target (p2 this)
                    (Vector2.copy (ControlPoint.position (p2 this)))) this in
  let this :=
    set_point P2 (ControlPoint.set_velocity (p2 this) (Vector2.new 0 0))
              this in
  set_dragged this None.

Definition updatePhysics (dt : R) (this : t) : t :=
  fold_left
    (fun this i =>
       set_point i
         (ControlPoint.applyPhysics (stiffness (physics this))
            (damping (physics this)) dt (point i this))
         this)
    Points.ids this.

(** [loop(timestamp)]; drawing and the request for the next frame change no
    field. *)
Definition loop (timestamp : R) (this : t) : t :=
  let dt :=
    if Req_dec_T (lastTime this) 0 then 1 / 60
    else (timestamp - lastTime this) / 1000 in
  let this := set_lastTime this timestamp in
  let stableDt := Rmin dt (1 / 30) in
  let this := updatePhysics stableDt this in
  set_curve this (BezierCurve.update (curve this)).

(** *** The listeners registered by [setupEvents] and [initMotion] *)

Inductive Event : Type :=
| Emousedown (rect : DOMRect) (e : MouseEvent)
| Emousemove (rect : DOMRect) (e : MouseEvent)
| Emouseup
| Emouseleave
| EstiffnessInput (value : R)
| EdampingInput (value : R)
| EresetClick
| EmodeClick
| Edevicemotion (e : DeviceMotionEvent)
| Eframe (timestamp : R).

Definition handle (this : t) (ev : Event) : t :=
  match ev with
  | Emousedown rect e => mouseDown rect e this
  | Emousemove rect e => mouseMove rect e this
  | Emouseup => mouseUp this
  | Emouseleave => mouseUp this
  | EstiffnessInput v =>
    set_physics this (mkPhysics v (damping (physics this)))
  | EdampingInput v =>
    set_physics this (mkPhysics (stiffness (physics this)) v)
  | EresetClick => reset this
  | EmodeClick => switchMode this
  | Edevicemotion e => handleMotion e this
  | Eframe timestamp => loop timestamp this
  end.

(** The state after a sequence of events, starting from [this]. *)
Definition run (evs : list Event) (this : t) : t := fold_left handle evs this.

End BezierApp.

(* ================================================================= *)
(** ** The arithmetic of [calculatePoint] in binary64 *)

Module Double.

Import PrimFloat.
Local Open Scope float_scope.

(** [Vector2] on doubles: the two methods [calculatePoint] calls. *)
Module Vector2.

Record t : Type := new { x : float; y : float }.

Definition add (this v : t) : t := new (x this + x v) (y this + y v).

Definition multiply (this : t) (s : float) : t := new (x this * s) (y this * s).

End Vector2.


(** [calculatePoint(t)] for control points at the positions [q0] .. [q3]:
    the body of the method, every operation rounded to the nearest double. *)
Definition calculatePoint (q0 q1 q2 q3 : Vector2.t) (t : float) : Vector2.t :=
  let u := 1 - t in
  let tt := t * t in
  let uu := u * u in
  let uuu := uu * u in
  let ttt := tt * t in
  let p0 := Vector2.multiply q0 uuu in
  let p1 := Vector2.multiply q1 (3 * uu * t) in
  let p2 := Vector2.multiply q2 (3 * u * tt) in
  let p3 := Vector2.multiply q3 ttt in
  Vector2.add (Vector2.add (Vector2.add p0 p1) p2) p3.










End Double.

(* ================================================================= *)
(** ** Vocabulary of the properties *)

(** *** One physics step *)

(** The velocity after the line
    [this.velocity = this.velocity.add(acceleration.multiply(dt))] of
    [applyPhysics], before the decay. *)
Definition integrated_velocity (stiffness damping dt : R)
  (cp : ControlPoint.t) : Vector2.t :=
  Vector2.add (ControlPoint.velocity cp)
    (Vector2.multiply
       (Vector2.add
          (Vector2.multiply
             (Vector2.subtract (ControlPoint.target cp)
                               (ControlPoint.position cp))
             stiffness)
          (Vector2.multiply (ControlPoint.velocity cp) (- damping)))
       dt).

(** *** Curve evaluation *)



(** *** Sampling *)

(** What counter [i] of the loop of [update] appends to [this.curve] and,
    when [i % 10 === 0], to [this.tangents]. *)
Definition sample (this : BezierCurve.t) (i : nat) : Vector2.t :=
  BezierCurve.calculatePoint this (INR i / INR (BezierCurve.segments this)).

Definition marker (this : BezierCurve.t) (i : nat) : BezierCurve.Tangent :=
  BezierCurve.mkTangent
    (BezierCurve.calculatePoint this
       (INR i / INR (BezierCurve.segments this)))
    (Vector2.normalize
       (BezierCurve.calculateTangent this
          (INR i / INR (BezierCurve.segments this)))).

Definition is_marked (i : nat) : bool := (i mod 10 =? 0)%nat.

(** *** Target clamping *)

(** The targets of both interior points lie in the box
    [[50, 750] x [50, 450]]. *)
Definition targets_clamped (this : BezierApp.t) : Prop :=
  50 <= BezierApp.target_x P1 this <= 750
  /\ 50 <= BezierApp.target_y P1 this <= 450
  /\ 50 <= BezierApp.target_x P2 this <= 750
  /\ 50 <= BezierApp.target_y P2 this <= 450.

(** *** Fixed points *)

(** From [s] to [s'] no [isFixed] flag has changed and no fixed point has
    moved. *)
Definition fixed_kept (s s' : BezierApp.t) : Prop :=
  forall i : PointId,
    ControlPoint.isFixed (BezierApp.point i s')
    = ControlPoint.isFixed (BezierApp.point i s)
    /\ (ControlPoint.isFixed (BezierApp.point i s) = true ->
        ControlPoint.position (BezierApp.point i s')
        = ControlPoint.position (BezierApp.point i s)).

(** The two interior points are free, and only a free point is dragged. *)
Definition free_interior (s : BezierApp.t) : Prop :=
  ControlPoint.isFixed (BezierApp.p1 s) = false
  /\ ControlPoint.isFixed (BezierApp.p2 s) = false
  /\ forall d, BezierApp.dragged s = Some d ->
               ControlPoint.isFixed (BezierApp.point d s) = false.

(** *** Repeated steps towards a resting target *)

(** The integrator is linear: started at rest, the displacement from the
    target after [n] steps is the initial displacement times a number, and so
    is the velocity.  [spring_step] is [applyPhysics] on these two numbers. *)
Definition spring_step (stiffness damping dt : R) (p : R * R) : R * R :=
  let (a, b) := p in
  let v1 := b + ((- a) * stiffness + b * (- damping)) * dt in
  (a + v1 * dt, v1 * ControlPoint.decay).

Fixpoint coef (stiffness damping dt : R) (n : nat) : R * R :=
  match n with
  | O => (1, 0)
  | S n => spring_step stiffness damping dt (coef stiffness damping dt n)
  end.

(** The distance of the point from its target. *)
Definition gap (cp : ControlPoint.t) : R :=
  Vector2.distanceTo (ControlPoint.position cp) (ControlPoint.target cp).

(** The run of the convergence property: the default coefficients of the
    app and the frame time [1/60]. *)
Definition coef60 : nat -> R * R := coef 0.08 0.92 (1 / 60).

Definition steps60 : nat -> ControlPoint.t -> ControlPoint.t :=
  ControlPoint.steps 0.08 0.92 (1 / 60).

(** A free point at rest at [(320, 150)] whose target is 200 units to the
    right. *)
Definition displaced : ControlPoint.t :=
  ControlPoint.set_target (ControlPoint.new 320 150 false)
                          (Vector2.new 520 150).

(** *** Further vocabulary *)

(** A control point whose spring is relaxed: it sits on its target and does
    not move. *)
Definition at_rest (cp : ControlPoint.t) : Prop :=
  ControlPoint.position cp = ControlPoint.target cp
  /\ ControlPoint.velocity cp = Vector2.new 0 0.


(** A curve through four given positions, built as [BezierApp] builds its
    own: two fixed end points and two free interior points. *)
Definition curve_of (a b c d : Vector2.t) : BezierCurve.t :=
  BezierCurve.new
    (ControlPoint.new (Vector2.x a) (Vector2.y a) true)
    (ControlPoint.new (Vector2.x b) (Vector2.y b) false)
    (ControlPoint.new (Vector2.x c) (Vector2.y c) false)
    (ControlPoint.new (Vector2.x d) (Vector2.y d) true).

(** [this.segments = n], as a program could assign the field. *)
Definition with_segments (n : nat) (bc : BezierCurve.t) : BezierCurve.t :=
  BezierCurve.mk (BezierCurve.points bc) (BezierCurve.curve bc)
                 (BezierCurve.tangents bc) n.


(** *** Vocabulary for the app *)

(** The pointer position a mouse handler computes from its event. *)
Definition pointer (rect : BezierApp.DOMRect) (e : BezierApp.MouseEvent)
  : Vector2.t :=
  Vector2.new (BezierApp.clientX e - BezierApp.left rect)
              (BezierApp.clientY e - BezierApp.top rect).

(** The test of the loop of [mouseDown]:
    [!point.isFixed && point.contains(pos)]. *)
Definition hit (pos : Vector2.t) (s : BezierApp.t) (i : PointId) : bool :=
  negb (ControlPoint.isFixed (BezierApp.point i s))
  && ControlPoint.contains (BezierApp.point i s) pos.

(** What [mouseDown] does to the point it stops at:
    [this.dragged = point; point.isDragging = true]. *)
Definition grab (i : PointId) (s : BezierApp.t) : BezierApp.t :=
  BezierApp.set_point i
    (ControlPoint.set_isDragging (BezierApp.point i s) true)
    (BezierApp.set_dragged s (Some i)).

(** [applyPhysics] returns such a point as it is. *)
Definition settled (cp : ControlPoint.t) : Prop :=
  ControlPoint.isFixed cp = true
  \/ ControlPoint.isDragging cp = true
  \/ at_rest cp.

(** The time step [loop] hands to [updatePhysics]. *)
Definition stableDt (timestamp : R) (s : BezierApp.t) : R :=
  Rmin (if Req_dec_T (BezierApp.lastTime s) 0 then 1 / 60
        else (timestamp - BezierApp.lastTime s) / 1000)
       (1 / 30).

(** [Math.max(lo, Math.min(v, hi))] *)
Definition clamp (lo hi v : R) : R := Rmax lo (Rmin v hi).

(** No [mousedown] among the events. *)
Definition no_mousedown (evs : list BezierApp.Event) : Prop :=
  forall rect e, ~ In (BezierApp.Emousedown rect e) evs.

(** Animation frames only. *)
Definition frames (timestamps : list R) : list BezierApp.Event :=
  map BezierApp.Eframe timestamps.


(** What every reachable state has in common: the canvas size and the number
    of segments of the constructor, the two end points exactly as
    constructed, free interior points of radius 10, a [dragged] reference
    that is [null] or one of the interior points with its [isDragging] set,
    and sample containers that are empty (before the first frame) or hold
    101 samples and 11 markers. *)
Definition sane (s : BezierApp.t) : Prop :=
  BezierApp.canvas s = BezierApp.mkCanvas 800 500
  /\ BezierCurve.segments (BezierApp.curve s) = 100%nat
  /\ BezierApp.p0 s = BezierApp.p0 BezierApp.new
  /\ BezierApp.p3 s = BezierApp.p3 BezierApp.new
  /\ (ControlPoint.isFixed (BezierApp.p1 s) = false
      /\ ControlPoint.radius (BezierApp.p1 s) = 10)
  /\ (ControlPoint.isFixed (BezierApp.p2 s) = false
      /\ ControlPoint.radius (BezierApp.p2 s) = 10)
  /\ (forall d : PointId,
        BezierApp.dragged s = Some d ->
        (d = P1 \/ d = P2)
        /\ ControlPoint.isDragging (BezierApp.point d s) = true)
  /\ ((BezierCurve.curve (BezierApp.curve s) = []
       /\ BezierCurve.tangents (BezierApp.curve s) = [])
      \/ (List.length (BezierCurve.curve (BezierApp.curve s)) = 101%nat
          /\ List.length (BezierCurve.tangents (BezierApp.curve s)) = 11%nat)).

(** *** Vocabulary for drawing *)

(** The calls [BezierCurve.draw] makes before it reads [this.curve[0]]:
    the dashed control polygon through the four positions, and the setup
    of the curve's own path. *)
Definition control_polygon (bc : BezierCurve.t) : list Canvas.Call :=
  [ Canvas.strokeStyle "rgba(100, 255, 218, 0.3)"%string;
    Canvas.lineWidth 1;
    Canvas.setLineDash [5; 3];
    Canvas.beginPath;
    Canvas.moveTo (Vector2.x (BezierCurve.pos bc P0))
                  (Vector2.y (BezierCurve.pos bc P0));
    Canvas.lineTo (Vector2.x (BezierCurve.pos bc P1))
                  (Vector2.y (BezierCurve.pos bc P1));
    Canvas.lineTo (Vector2.x (BezierCurve.pos bc P2))
                  (Vector2.y (BezierCurve.pos bc P2));
    Canvas.lineTo (Vector2.x (BezierCurve.pos bc P3))
                  (Vector2.y (BezierCurve.pos bc P3));
    Canvas.stroke;
    Canvas.setLineDash [];
    Canvas.strokeStyle "#64ffda"%string;
    Canvas.lineWidth 3;
    Canvas.beginPath ].

(** The polyline through the samples [first :: rest], stroked. *)
Definition polyline (first : Vector2.t) (rest : list Vector2.t)
  : list Canvas.Call :=
  Canvas.moveTo (Vector2.x first) (Vector2.y first)
  :: map (fun p => Canvas.lineTo (Vector2.x p) (Vector2.y p)) rest
  ++ [ Canvas.stroke ].

(** The calls of [draw] after the polyline: the arrows, then the four
    control points in the order of [this.points]. *)
Definition decorations (atan2 : R -> R -> R) (bc : BezierCurve.t)
  : list Canvas.Call :=
  [ Canvas.strokeStyle "#ff4081"%string; Canvas.lineWidth 2 ]
  ++ flat_map (BezierCurve.draw_arrow atan2) (BezierCurve.tangents bc)
  ++ ControlPoint.draw (Points.pt0 (BezierCurve.points bc))
  ++ ControlPoint.draw (Points.pt1 (BezierCurve.points bc))
  ++ ControlPoint.draw (Points.pt2 (BezierCurve.points bc))
  ++ ControlPoint.draw (Points.pt3 (BezierCurve.points bc)).

(** *** Rounding allowance *)


(* ================================================================= *)
(** ** Properties of [Vector2] *)

Section Vector2Facts.

Import Vector2.

Lemma vector2_eta (v : Vector2.t) : new (x v) (y v) = v.
Proof. destruct v; reflexivity. Qed.

Lemma copy_id (v : Vector2.t) : copy v = v.
Proof. apply vector2_eta. Qed.

Lemma vector2_ext (v w : Vector2.t) : x v = x w -> y v = y w -> v = w.
Proof. destruct v, w; simpl; intros -> ->; reflexivity. Qed.

Lemma sum_squares_nonneg (a b : R) : 0 <= a * a + b * b.
Proof. nra. Qed.

Lemma length_nonneg (v : Vector2.t) : 0 <= length v.
Proof. apply sqrt_pos. Qed.

Lemma length_zero : length (new 0 0) = 0.
Proof.
  unfold length; simpl.
  replace (0 * 0 + 0 * 0) with 0 by ring.
  apply sqrt_0.
Qed.

Lemma length_sqr (v : Vector2.t) :
  length v * length v = x v * x v + y v * y v.
Proof. unfold length. apply sqrt_sqrt, sum_squares_nonneg. Qed.

Lemma normalize_nonzero (v : Vector2.t) :
  length v <> 0 ->
  normalize v = new (x v / length v) (y v / length v).
Proof.
  intros H. unfold normalize.
  destruct (Req_dec_T (length v) 0) as [E | _]; [contradiction | reflexivity].
Qed.

(** Scaling a vector scales its length by the absolute value. *)
Lemma length_multiply (v : Vector2.t) (s : R) :
  length (multiply v s) = Rabs s * length v.
Proof.
  unfold length; simpl.
  replace (x v * s * (x v * s) + y v * s * (y v * s))
    with (Rsqr s * (x v * x v + y v * y v)) by (unfold Rsqr; ring).
  rewrite sqrt_mult_alt by apply Rle_0_sqr.
  rewrite sqrt_Rsqr_abs. reflexivity.
Qed.

End Vector2Facts.

(** C8 -- The [Vector2] operations are functions that yield a vector or a
    number on every input: [length] takes the square root of a sum of squares,
    which is never negative, and [normalize] takes the branch that divides
    only when the length is not zero, and then divides both coordinates by
    that length.  [normalize] of the zero vector is [(0, 0)], and
    [distanceTo(v, w)] is the length of [subtract(v, w)]. *)
Theorem vector2_operations_total :
  Vector2.normalize (Vector2.new 0 0) = Vector2.new 0 0
  /\ (forall v w : Vector2.t,
        Vector2.distanceTo v w = Vector2.length (Vector2.subtract v w))
  /\ (forall v : Vector2.t,
        0 <= Vector2.x v * Vector2.x v + Vector2.y v * Vector2.y v
        /\ 0 <= Vector2.length v)
  /\ (forall v : Vector2.t,
        (Vector2.length v = 0 /\ Vector2.normalize v = Vector2.new 0 0)
        \/ (Vector2.length v <> 0
            /\ Vector2.normalize v =
               Vector2.new (Vector2.x v / Vector2.length v)
                           (Vector2.y v / Vector2.length v))).
Proof.
  split; [| split; [| split]].
  - unfold Vector2.normalize.
    destruct (Req_dec_T _ 0) as [_ | N]; [reflexivity |].
    exfalso. apply N, length_zero.
  - intros v w. reflexivity.
  - intros v. split; [apply sum_squares_nonneg | apply length_nonneg].
  - intros v. destruct (Req_dec_T (Vector2.length v) 0) as [E | N].
    + left. split; [exact E |].
      unfold Vector2.normalize.
      destruct (Req_dec_T _ 0) as [_ | N]; [reflexivity | contradiction].
    + right. split; [exact N |].
      apply normalize_nonzero, N.
Qed.

(* ================================================================= *)
(** ** One call of [applyPhysics] *)

Section ApplyPhysics.

Import ControlPoint.

Variables stiffness damping dt : R.

Lemma applyPhysics_free (cp : ControlPoint.t) :
  isFixed cp = false -> isDragging cp = false ->
  applyPhysics stiffness damping dt cp =
  mk (Vector2.add (position cp)
                  (Vector2.multiply
                     (integrated_velocity stiffness damping dt cp) dt))
     (Vector2.multiply (integrated_velocity stiffness damping dt cp) decay)
     (target cp) false false (radius cp).
Proof.
  intros Hf Hd. unfold applyPhysics. rewrite Hf, Hd. simpl.
  unfold set_velocity, set_position; simpl. rewrite Hf, Hd. reflexivity.
Qed.

Lemma applyPhysics_suspended (cp : ControlPoint.t) :
  isFixed cp || isDragging cp = true ->
  applyPhysics stiffness damping dt cp = cp.
Proof. intros H. unfold applyPhysics. rewrite H. reflexivity. Qed.

(** [applyPhysics] never writes [target], [isFixed], [isDragging], [radius]. *)
Lemma applyPhysics_frame (cp : ControlPoint.t) :
  target (applyPhysics stiffness damping dt cp) = target cp
  /\ isFixed (applyPhysics stiffness damping dt cp) = isFixed cp
  /\ isDragging (applyPhysics stiffness damping dt cp) = isDragging cp
  /\ radius (applyPhysics stiffness damping dt cp) = radius cp.
Proof.
  unfold applyPhysics.
  destruct (isFixed cp || isDragging cp); simpl; auto.
Qed.

End ApplyPhysics.

(** C1 -- For a control point that is neither fixed nor dragged, one call of
    [applyPhysics] sets the velocity to
    [(velocity + ((target - position) * stiffness + velocity * (-damping)) * dt) * 0.99]
    and the position to
    [position + (velocity + (...) * dt) * dt], and changes nothing else.  In
    particular, from velocity [(0, 0)], [position.x = 480], [target.x = 500],
    [stiffness = 0.08] and [dt = 1/60], the x-velocity after the call is
    [((500 - 480) * 0.08) * 1 / 60 * 0.99]. *)
Theorem applyPhysics_euler_step
  (stiffness damping dt : R) (cp : ControlPoint.t) :
  ControlPoint.isFixed cp = false ->
  ControlPoint.isDragging cp = false ->
  let acceleration :=
    Vector2.add
      (Vector2.multiply
         (Vector2.subtract (ControlPoint.target cp) (ControlPoint.position cp))
         stiffness)
      (Vector2.multiply (ControlPoint.velocity cp) (- damping)) in
  let v1 :=
    Vector2.add (ControlPoint.velocity cp) (Vector2.multiply acceleration dt) in
  let cp' := ControlPoint.applyPhysics stiffness damping dt cp in
  ControlPoint.velocity cp' = Vector2.multiply v1 0.99
  /\ ControlPoint.position cp' =
     Vector2.add (ControlPoint.position cp) (Vector2.multiply v1 dt)
  /\ ControlPoint.target cp' = ControlPoint.target cp
  /\ ControlPoint.isFixed cp' = ControlPoint.isFixed cp
  /\ ControlPoint.isDragging cp' = ControlPoint.isDragging cp
  /\ ControlPoint.radius cp' = ControlPoint.radius cp
  /\ (ControlPoint.velocity cp = Vector2.new 0 0 ->
      Vector2.x (ControlPoint.position cp) = 480 ->
      Vector2.x (ControlPoint.target cp) = 500 ->
      stiffness = 0.08 -> dt = 1 / 60 ->
      Vector2.x (ControlPoint.velocity cp') =
      ((500 - 480) * 0.08) * 1 / 60 * 0.99).
Proof.
  intros Hf Hd acceleration v1 cp'.
  subst cp'. rewrite (applyPhysics_free stiffness damping dt cp Hf Hd).
  simpl. rewrite Hf, Hd.
  repeat split.
  intros Hv Hp Ht -> ->.
  unfold integrated_velocity, ControlPoint.decay.
  rewrite Hv. simpl. rewrite Hp, Ht. lra.
Qed.

(** The second end-to-end scenario of the specification: [p2] of a fresh
    app, with its target moved to [(500, 200)], stepped once. *)
Lemma applyPhysics_euler_step_witness :
  let cp :=
    ControlPoint.set_target (BezierApp.p2 BezierApp.new)
                            (Vector2.new 500 200) in
  Vector2.x (ControlPoint.velocity
               (ControlPoint.applyPhysics 0.08 0.92 (1 / 60) cp)) =
  ((500 - 480) * 0.08) * 1 / 60 * 0.99.
Proof.
  intros cp.
  refine (proj2 (proj2 (proj2 (proj2 (proj2 (proj2
    (applyPhysics_euler_step 0.08 0.92 (1 / 60) cp eq_refl eq_refl))))))
    _ _ _ _ _).
  - reflexivity.
  - simpl. lra.
  - reflexivity.
  - reflexivity.
  - reflexivity.
Defined.

(** C2 -- On a control point that is fixed or being dragged, [applyPhysics]
    returns at once: no field changes, whatever the arguments. *)
Theorem applyPhysics_suspension
  (stiffness damping dt : R) (cp : ControlPoint.t) :
  ControlPoint.isFixed cp = true \/ ControlPoint.isDragging cp = true ->
  ControlPoint.applyPhysics stiffness damping dt cp = cp.
Proof.
  intros H. apply applyPhysics_suspended.
  destruct H as [-> | ->]; [reflexivity | apply orb_true_r].
Qed.

Lemma applyPhysics_suspension_witness :
  ControlPoint.applyPhysics 0.08 0.92 (1 / 60) (BezierApp.p0 BezierApp.new)
  = BezierApp.p0 BezierApp.new
  /\ ControlPoint.applyPhysics 0.08 0.92 (1 / 60)
       (ControlPoint.set_isDragging (BezierApp.p1 BezierApp.new) true)
     = ControlPoint.set_isDragging (BezierApp.p1 BezierApp.new) true.
Proof.
  split.
  - apply (applyPhysics_suspension 0.08 0.92 (1 / 60)
             (BezierApp.p0 BezierApp.new)).
    left. reflexivity.
  - apply (applyPhysics_suspension 0.08 0.92 (1 / 60)
             (ControlPoint.set_isDragging (BezierApp.p1 BezierApp.new) true)).
    right. reflexivity.
Defined.

(** C9 -- With [dt = 0] a free point keeps its position, but its velocity is
    still multiplied by 0.99: a velocity that is not zero changes although no
    time has passed. *)
Theorem applyPhysics_zero_dt
  (stiffness damping : R) (cp : ControlPoint.t) :
  ControlPoint.isFixed cp = false ->
  ControlPoint.isDragging cp = false ->
  let cp' := ControlPoint.applyPhysics stiffness damping 0 cp in
  ControlPoint.position cp' = ControlPoint.position cp
  /\ ControlPoint.velocity cp' =
     Vector2.multiply (ControlPoint.velocity cp) 0.99
  /\ (ControlPoint.velocity cp <> Vector2.new 0 0 ->
      ControlPoint.velocity cp' <> ControlPoint.velocity cp).
Proof.
  intros Hf Hd cp'. subst cp'.
  rewrite (applyPhysics_free stiffness damping 0 cp Hf Hd). simpl.
  assert (Hv : integrated_velocity stiffness damping 0 cp
               = ControlPoint.velocity cp).
  { unfold integrated_velocity.
    apply vector2_ext; simpl; ring. }
  rewrite Hv. unfold ControlPoint.decay.
  split; [| split].
  - apply vector2_ext; simpl; ring.
  - reflexivity.
  - intros Hnz Heq. apply Hnz.
    apply (f_equal Vector2.x) in Heq as Hx.
    apply (f_equal Vector2.y) in Heq as Hy.
    simpl in Hx, Hy.
    apply vector2_ext; simpl; lra.
Qed.

Lemma applyPhysics_zero_dt_witness :
  let cp :=
    ControlPoint.set_velocity (ControlPoint.new 320 150 false)
                              (Vector2.new 100 0) in
  ControlPoint.position (ControlPoint.applyPhysics 0.08 0.92 0 cp)
  = Vector2.new 320 150
  /\ ControlPoint.velocity (ControlPoint.applyPhysics 0.08 0.92 0 cp)
     <> Vector2.new 100 0.
Proof.
  intros cp.
  destruct (applyPhysics_zero_dt 0.08 0.92 cp eq_refl eq_refl)
    as (Hp & _ & Hv).
  split.
  - exact Hp.
  - apply Hv. simpl. intros H. apply (f_equal Vector2.x) in H.
    simpl in H. lra.
Defined.

(* ================================================================= *)
(** ** Curve evaluation *)

Section Evaluation.

Import BezierCurve.

Variable bc : BezierCurve.t.

Lemma calculatePoint_x (t : R) :
  Vector2.x (calculatePoint bc t) =
  Vector2.x (pos bc P0) * ((1 - t) * (1 - t) * (1 - t))
  + Vector2.x (pos bc P1) * (3 * ((1 - t) * (1 - t)) * t)
  + Vector2.x (pos bc P2) * (3 * (1 - t) * (t * t))
  + Vector2.x (pos bc P3) * (t * t * t).
Proof. reflexivity. Qed.

Lemma calculatePoint_y (t : R) :
  Vector2.y (calculatePoint bc t) =
  Vector2.y (pos bc P0) * ((1 - t) * (1 - t) * (1 - t))
  + Vector2.y (pos bc P1) * (3 * ((1 - t) * (1 - t)) * t)
  + Vector2.y (pos bc P2) * (3 * (1 - t) * (t * t))
  + Vector2.y (pos bc P3) * (t * t * t).
Proof. reflexivity. Qed.





End Evaluation.

(** C4 -- Whatever the four control points are, [calculatePoint(0)] is the
    position of the first and [calculatePoint(1)] the position of the last. *)
Theorem calculatePoint_endpoints (bc : BezierCurve.t) :
  BezierCurve.calculatePoint bc 0 = BezierCurve.pos bc P0
  /\ BezierCurve.calculatePoint bc 1 = BezierCurve.pos bc P3.
Proof.
  split; apply vector2_ext;
    rewrite ?calculatePoint_x, ?calculatePoint_y; ring.
Qed.







(* ================================================================= *)
(** ** Sampling: [BezierCurve.update] *)

Section Update.

Import BezierCurve.

Lemma update_body_eq (this : BezierCurve.t) (i : nat) :
  update_body this i =
  mk (points this)
     (curve this ++ [sample this i])
     (tangents this ++ (if is_marked i then [marker this i] else []))
     (segments this).
Proof.
  unfold update_body, is_marked, sample, marker.
  destruct (i mod 10 =? 0)%nat; simpl.
  - reflexivity.
  - rewrite app_nil_r. reflexivity.
Qed.

(** [sample] and [marker] read the positions and [segments] only. *)
Lemma sample_ext (a b : BezierCurve.t) (i : nat) :
  (forall k, pos a k = pos b k) -> segments a = segments b ->
  sample a i = sample b i /\ marker a i = marker b i.
Proof.
  intros Hp Hs.
  unfold sample, marker, calculatePoint, calculateTangent.
  rewrite !Hp, Hs. split; reflexivity.
Qed.

Lemma update_loop_eq (l : list nat) (this : BezierCurve.t) :
  fold_left update_body l this =
  mk (points this)
     (curve this ++ map (sample this) l)
     (tangents this ++ map (marker this) (filter is_marked l))
     (segments this).
Proof.
  revert this. induction l as [| i l IH]; intros this.
  - simpl. rewrite !app_nil_r. destruct this; reflexivity.
  - simpl fold_left. rewrite IH, update_body_eq. simpl points. simpl segments.
    simpl curve. simpl tangents.
    assert (E : forall k,
               sample (mk (points this) (curve this ++ [sample this i])
                         (tangents this ++
                            (if is_marked i then [marker this i] else []))
                         (segments this)) k = sample this k
               /\ marker (mk (points this) (curve this ++ [sample this i])
                            (tangents this ++
                               (if is_marked i then [marker this i] else []))
                            (segments this)) k = marker this k).
    { intros k. apply sample_ext; reflexivity. }
    rewrite (map_ext _ (sample this) (fun k => proj1 (E k))).
    rewrite (map_ext _ (marker this) (fun k => proj2 (E k))).
    rewrite <- !app_assoc. simpl.
    destruct (is_marked i); reflexivity.
Qed.

Lemma update_eq (this : BezierCurve.t) :
  update this =
  mk (points this)
     (map (sample this) (seq 0 (S (segments this))))
     (map (marker this) (filter is_marked (seq 0 (S (segments this)))))
     (segments this).
Proof.
  unfold update. rewrite update_loop_eq. reflexivity.
Qed.

(** The output of [update] is determined by the positions of the control
    points and [segments]. *)
Lemma update_ext (a b : BezierCurve.t) :
  (forall k, pos a k = pos b k) -> segments a = segments b ->
  curve (update a) = curve (update b)
  /\ tangents (update a) = tangents (update b).
Proof.
  intros Hp Hs. rewrite !update_eq. cbn [curve tangents]. rewrite Hs.
  split; apply map_ext; intros k; apply sample_ext; assumption.
Qed.

Lemma update_idempotent (this : BezierCurve.t) :
  update (update this) = update this.
Proof.
  rewrite (update_eq (update this)). rewrite (update_eq this). reflexivity.
Qed.

(** With 100 segments the marked counters are 0, 10, ..., 100. *)
Lemma marked_100 :
  filter is_marked (seq 0 101) = map (fun j => (10 * j)%nat) (seq 0 11).
Proof. reflexivity. Qed.

Lemma INR_100 : INR 100 = 100.
Proof. rewrite INR_IZR_INZ. reflexivity. Qed.

End Update.

(** C5 -- With [segments = 100], one call of [update] leaves 101 entries in
    [curve], entry [i] being [calculatePoint(i / 100)], and 11 entries in
    [tangents], entry [j] holding [calculatePoint(t)] and the normalized
    [calculateTangent(t)] for [t = 10 j / 100].  The control points are not
    touched, the two sequences depend on their positions only, and a second
    call gives the same result. *)
Theorem update_samples (bc : BezierCurve.t) :
  BezierCurve.segments bc = 100%nat ->
  let bc' := BezierCurve.update bc in
  List.length (BezierCurve.curve bc') = 101%nat
  /\ (forall i : nat, (i <= 100)%nat ->
        nth_error (BezierCurve.curve bc') i =
        Some (BezierCurve.calculatePoint bc (INR i / 100)))
  /\ List.length (BezierCurve.tangents bc') = 11%nat
  /\ (forall j : nat, (j <= 10)%nat ->
        nth_error (BezierCurve.tangents bc') j =
        Some (BezierCurve.mkTangent
                (BezierCurve.calculatePoint bc (INR (10 * j) / 100))
                (Vector2.normalize
                   (BezierCurve.calculateTangent bc (INR (10 * j) / 100)))))
  /\ BezierCurve.points bc' = BezierCurve.points bc
  /\ BezierCurve.segments bc' = BezierCurve.segments bc
  /\ BezierCurve.update bc' = bc'
  /\ (forall bc2 : BezierCurve.t,
        BezierCurve.segments bc2 = 100%nat ->
        (forall k, BezierCurve.pos bc2 k = BezierCurve.pos bc k) ->
        BezierCurve.curve (BezierCurve.update bc2) = BezierCurve.curve bc'
        /\ BezierCurve.tangents (BezierCurve.update bc2) =
           BezierCurve.tangents bc').
Proof.
  intros Hseg bc'. subst bc'.
  rewrite (update_eq bc).
  cbn [BezierCurve.curve BezierCurve.tangents BezierCurve.points
       BezierCurve.segments].
  rewrite <- (update_eq bc).
  rewrite Hseg, marked_100.
  split; [| split; [| split; [| split; [| split; [| split; [| split]]]]]].
  - rewrite length_map, length_seq. reflexivity.
  - intros i Hi.
    rewrite nth_error_map, nth_error_seq.
    destruct (Nat.ltb_spec i 101) as [_ | Hge]; [| lia].
    simpl. unfold sample. rewrite Hseg, INR_100. reflexivity.
  - rewrite !length_map, length_seq. reflexivity.
  - intros j Hj.
    rewrite !nth_error_map, nth_error_seq.
    destruct (Nat.ltb_spec j 11) as [_ | Hge]; [| lia].
    simpl option_map. unfold marker. rewrite Hseg, INR_100. reflexivity.
  - reflexivity.
  - reflexivity.
  - apply update_idempotent.
  - intros bc2 Hseg2 Hpos.
    destruct (update_ext bc2 bc Hpos (eq_trans Hseg2 (eq_sym Hseg)))
      as [Hc Ht].
    rewrite Hc, Ht, update_eq.
    cbn [BezierCurve.curve BezierCurve.tangents].
    rewrite Hseg, marked_100. split; reflexivity.
Qed.

(** The curve of a fresh app has 100 segments: sample 50 is the point at
    [t = 50/100] and marker 5 is taken at the same parameter. *)
Lemma update_samples_witness :
  let bc := BezierApp.curve BezierApp.new in
  List.length (BezierCurve.curve (BezierCurve.update bc)) = 101%nat
  /\ nth_error (BezierCurve.curve (BezierCurve.update bc)) 50 =
     Some (BezierCurve.calculatePoint bc (INR 50 / 100))
  /\ List.length (BezierCurve.tangents (BezierCurve.update bc)) = 11%nat.
Proof.
  intros bc.
  destruct (update_samples bc eq_refl) as (Hl & Hn & Ht & _).
  split; [exact Hl |].
  split; [| exact Ht].
  apply Hn. repeat constructor.
Defined.

(* ================================================================= *)
(** ** Target clamping *)

Section Clamp.

Import BezierApp.

Lemma clamp_range (lo hi v : R) :
  lo <= hi -> lo <= Rmax lo (Rmin v hi) <= hi.
Proof.
  intros H. split.
  - apply Rmax_l.
  - apply Rmax_lub; [exact H | apply Rmin_r].
Qed.

(** The four assignments of [clampTargets] read the target they overwrite
    and the canvas size, nothing else. *)
Lemma clampTargets_targets (this : BezierApp.t) :
  let w := width (canvas this) in
  let h := height (canvas this) in
  target_x P1 (clampTargets this) = Rmax 50 (Rmin (target_x P1 this) (w - 50))
  /\ target_y P1 (clampTargets this) =
     Rmax 50 (Rmin (target_y P1 this) (h - 50))
  /\ target_x P2 (clampTargets this) =
     Rmax 50 (Rmin (target_x P2 this) (w - 50))
  /\ target_y P2 (clampTargets this) =
     Rmax 50 (Rmin (target_y P2 this) (h - 50)).
Proof.
  destruct this as [cv [[a b c d] cu tg sg] ph md dr mp lt f].
  repeat split.
Qed.

Lemma clampTargets_canvas (this : BezierApp.t) :
  canvas (clampTargets this) = canvas this.
Proof. reflexivity. Qed.

(** On a canvas of at least 100 x 100 the clamped targets lie in
    [[50, width - 50] x [50, height - 50]]. *)
Lemma clampTargets_box (this : BezierApp.t) :
  100 <= width (canvas this) -> 100 <= height (canvas this) ->
  let w := width (canvas this) in
  let h := height (canvas this) in
  50 <= target_x P1 (clampTargets this) <= w - 50
  /\ 50 <= target_y P1 (clampTargets this) <= h - 50
  /\ 50 <= target_x P2 (clampTargets this) <= w - 50
  /\ 50 <= target_y P2 (clampTargets this) <= h - 50.
Proof.
  intros Hw Hh w h.
  destruct (clampTargets_targets this) as (E1 & E2 & E3 & E4).
  rewrite E1, E2, E3, E4.
  repeat split; apply clamp_range; subst w h; lra.
Qed.

Lemma clampTargets_box_800_500 (this : BezierApp.t) :
  canvas this = mkCanvas 800 500 -> targets_clamped (clampTargets this).
Proof.
  intros Hc.
  assert (Hw : width (canvas this) = 800) by (rewrite Hc; reflexivity).
  assert (Hh : height (canvas this) = 500) by (rewrite Hc; reflexivity).
  pose proof (clampTargets_box this) as B. cbv zeta in B.
  rewrite Hw, Hh in B.
  unfold targets_clamped.
  assert (H8 : 100 <= 800) by lra. assert (H5 : 100 <= 500) by lra.
  specialize (B H8 H5). lra.
Qed.

End Clamp.

(** C6 -- On the 800 x 500 canvas, after [clampTargets] the targets of [p1]
    and [p2] have [x] in [[50, 750]] and [y] in [[50, 450]], wherever they
    were before the call. *)
Theorem clampTargets_in_range (this : BezierApp.t) :
  BezierApp.width (BezierApp.canvas this) = 800 ->
  BezierApp.height (BezierApp.canvas this) = 500 ->
  targets_clamped (BezierApp.clampTargets this).
Proof.
  intros Hw Hh.
  apply clampTargets_box_800_500.
  destruct (BezierApp.canvas this) as [w h]. cbn in Hw, Hh.
  rewrite Hw, Hh. reflexivity.
Qed.

(** Targets a long way outside the canvas, as a large offset leaves them. *)
Lemma clampTargets_in_range_witness :
  targets_clamped
    (BezierApp.clampTargets
       (BezierApp.set_target_y P2 (- 1000000000)
          (BezierApp.set_target_x P1 1000000000 BezierApp.new))).
Proof.
  apply (clampTargets_in_range
           (BezierApp.set_target_y P2 (- 1000000000)
              (BezierApp.set_target_x P1 1000000000 BezierApp.new))).
  - reflexivity.
  - reflexivity.
Defined.

(** Both handlers that steer the targets end with [clampTargets]: after a
    pointer move without a drag in mouse mode, and after a motion event with
    a rotation rate in motion mode, the targets are in the box. *)
Lemma mouseMove_targets_clamped
  (rect : BezierApp.DOMRect) (e : BezierApp.MouseEvent) (this : BezierApp.t) :
  BezierApp.canvas this = BezierApp.mkCanvas 800 500 ->
  BezierApp.dragged this = None ->
  BezierApp.mode this = BezierApp.mouse ->
  targets_clamped (BezierApp.mouseMove rect e this).
Proof.
  intros Hc Hd Hm. unfold BezierApp.mouseMove.
  cbn [BezierApp.dragged BezierApp.set_mousePos BezierApp.mode].
  rewrite Hd, Hm.
  apply clampTargets_box_800_500. exact Hc.
Qed.

Lemma handleMotion_targets_clamped
  (rate : BezierApp.RotationRate) (this : BezierApp.t) :
  BezierApp.canvas this = BezierApp.mkCanvas 800 500 ->
  BezierApp.mode this = BezierApp.motion ->
  targets_clamped
    (BezierApp.handleMotion (BezierApp.mkMotion (Some rate)) this).
Proof.
  intros Hc Hm. unfold BezierApp.handleMotion.
  rewrite Hm. cbn [BezierApp.rotationRate].
  apply clampTargets_box_800_500. exact Hc.
Qed.

(* ================================================================= *)
(** ** Fixed points stay where they were constructed *)

Section FixedPoints.

Import BezierApp.

Lemma fixed_kept_refl (s : BezierApp.t) : fixed_kept s s.
Proof. intros i. split; auto. Qed.

Lemma fixed_kept_trans (s1 s2 s3 : BezierApp.t) :
  fixed_kept s1 s2 -> fixed_kept s2 s3 -> fixed_kept s1 s3.
Proof.
  intros H12 H23 i.
  destruct (H12 i) as [F12 Q12], (H23 i) as [F23 Q23].
  split.
  - congruence.
  - intros Hf. rewrite Q23 by congruence. apply Q12, Hf.
Qed.

Lemma point_set_point_same (i : PointId) (c : ControlPoint.t)
  (s : BezierApp.t) : point i (set_point i c s) = c.
Proof. destruct i; reflexivity. Qed.

Lemma point_set_point_other (i j : PointId) (c : ControlPoint.t)
  (s : BezierApp.t) : i <> j -> point i (set_point j c s) = point i s.
Proof. destruct i, j; intros H; try reflexivity; contradiction. Qed.

Lemma PointId_eq_dec (i j : PointId) : {i = j} + {i <> j}.
Proof. decide equality. Qed.

(** Mutating the object behind [j] keeps the fixed points when the write
    leaves [isFixed] alone and, on a fixed point, the position too. *)
Lemma set_point_fixed_kept (j : PointId) (c : ControlPoint.t)
  (s : BezierApp.t) :
  ControlPoint.isFixed c = ControlPoint.isFixed (point j s) ->
  (ControlPoint.isFixed (point j s) = true ->
   ControlPoint.position c = ControlPoint.position (point j s)) ->
  fixed_kept s (set_point j c s).
Proof.
  intros Hf Hp i.
  destruct (PointId_eq_dec i j) as [-> | Hne].
  - rewrite point_set_point_same. auto.
  - rewrite point_set_point_other by exact Hne. auto.
Qed.

Lemma set_target_x_fixed_kept (j : PointId) (v : R) (s : BezierApp.t) :
  fixed_kept s (set_target_x j v s).
Proof. apply set_point_fixed_kept; reflexivity. Qed.

Lemma set_target_y_fixed_kept (j : PointId) (v : R) (s : BezierApp.t) :
  fixed_kept s (set_target_y j v s).
Proof. apply set_point_fixed_kept; reflexivity. Qed.

Lemma set_target_fixed_kept (j : PointId) (v : Vector2.t) (s : BezierApp.t) :
  fixed_kept s (set_point j (ControlPoint.set_target (point j s) v) s).
Proof. apply set_point_fixed_kept; reflexivity. Qed.

Lemma set_isDragging_fixed_kept (j : PointId) (b : bool) (s : BezierApp.t) :
  fixed_kept s (set_point j (ControlPoint.set_isDragging (point j s) b) s).
Proof. apply set_point_fixed_kept; reflexivity. Qed.

Lemma set_velocity_fixed_kept (j : PointId) (v : Vector2.t)
  (s : BezierApp.t) :
  fixed_kept s (set_point j (ControlPoint.set_velocity (point j s) v) s).
Proof. apply set_point_fixed_kept; reflexivity. Qed.

(** Only here does a handler write a position: the point must be free. *)
Lemma set_position_fixed_kept (j : PointId) (v : Vector2.t)
  (s : BezierApp.t) :
  ControlPoint.isFixed (point j s) = false ->
  fixed_kept s (set_point j (ControlPoint.set_position (point j s) v) s).
Proof.
  intros Hfree. apply set_point_fixed_kept; [reflexivity |].
  intros Hfix. congruence.
Qed.

(** [free_interior] carries over when the fixed points are kept and the
    dragged reference, if any, is to a free point. *)
Lemma free_interior_kept (s s' : BezierApp.t) :
  free_interior s -> fixed_kept s s' ->
  (forall d, dragged s' = Some d -> ControlPoint.isFixed (point d s) = false) ->
  free_interior s'.
Proof.
  intros (H1 & H2 & _) Hk Hd.
  split; [| split].
  - unfold p1. rewrite (proj1 (Hk P1)). exact H1.
  - unfold p2. rewrite (proj1 (Hk P2)). exact H2.
  - intros d E. rewrite (proj1 (Hk d)). apply Hd, E.
Qed.

Ltac chain :=
  repeat first
    [ apply fixed_kept_refl
    | apply set_target_x_fixed_kept
    | apply set_target_y_fixed_kept
    | apply set_target_fixed_kept
    | apply set_isDragging_fixed_kept
    | apply set_velocity_fixed_kept
    | eapply fixed_kept_trans;
      [| first [ apply set_target_x_fixed_kept
               | apply set_target_y_fixed_kept
               | apply set_target_fixed_kept
               | apply set_isDragging_fixed_kept
               | apply set_velocity_fixed_kept ] ] ].

Lemma clampTargets_fixed_kept (s : BezierApp.t) :
  fixed_kept s (clampTargets s).
Proof. unfold clampTargets. cbv zeta. chain. Qed.

Lemma handleMotion_fixed_kept (e : DeviceMotionEvent) (s : BezierApp.t) :
  fixed_kept s (handleMotion e s).
Proof.
  unfold handleMotion.
  destruct (mode s); [apply fixed_kept_refl |].
  destruct (rotationRate e) as [rate |]; [| apply fixed_kept_refl].
  cbv zeta.
  eapply fixed_kept_trans; [| apply clampTargets_fixed_kept].
  chain.
Qed.

Lemma mouseDown_loop_ok (ids : list PointId) (pos : Vector2.t)
  (s : BezierApp.t) :
  free_interior s ->
  fixed_kept s (mouseDown_loop ids pos s)
  /\ free_interior (mouseDown_loop ids pos s).
Proof.
  intros Hs. induction ids as [| i rest IH]; simpl.
  - split; [apply fixed_kept_refl | exact Hs].
  - destruct (negb (ControlPoint.isFixed (point i s))
              && ControlPoint.contains (point i s) pos) eqn:E;
      [| exact IH].
    apply andb_true_iff in E as [Hfree _].
    apply negb_true_iff in Hfree.
    assert (K : fixed_kept s
                  (set_point i
                     (ControlPoint.set_isDragging
                        (point i (set_dragged s (Some i))) true)
                     (set_dragged s (Some i)))).
    { apply (set_isDragging_fixed_kept i true (set_dragged s (Some i))). }
    split; [exact K |].
    apply (free_interior_kept s _ Hs K).
    intros d Hd. destruct i; cbn in Hd; injection Hd as <-; exact Hfree.
Qed.

Lemma mouseDown_ok (rect : DOMRect) (e : MouseEvent) (s : BezierApp.t) :
  free_interior s ->
  fixed_kept s (mouseDown rect e s) /\ free_interior (mouseDown rect e s).
Proof. intros Hs. apply mouseDown_loop_ok, Hs. Qed.

Lemma mouseMove_ok (rect : DOMRect) (e : MouseEvent) (s : BezierApp.t) :
  free_interior s ->
  fixed_kept s (mouseMove rect e s) /\ free_interior (mouseMove rect e s).
Proof.
  intros Hs.
  assert (K : fixed_kept s (mouseMove rect e s)).
  { unfold mouseMove. cbv zeta.
    set (s0 := set_mousePos s _).
    assert (K0 : fixed_kept s s0) by (intros i; split; auto).
    eapply fixed_kept_trans; [exact K0 |].
    change (dragged s0) with (dragged s). change (mode s0) with (mode s).
    destruct (dragged s) as [d |] eqn:Ed.
    - eapply fixed_kept_trans; [| apply set_velocity_fixed_kept].
      eapply fixed_kept_trans; [| apply set_target_fixed_kept].
      apply (set_position_fixed_kept d _ s0).
      apply (proj2 (proj2 Hs) d Ed).
    - destruct (mode s); [| apply fixed_kept_refl].
      eapply fixed_kept_trans; [| apply clampTargets_fixed_kept].
      eapply fixed_kept_trans; [| apply (set_target_fixed_kept P2)].
      apply (set_target_fixed_kept P1). }
  split; [exact K |].
  apply (free_interior_kept s _ Hs K).
  assert (D : dragged (mouseMove rect e s) = dragged s).
  { unfold mouseMove. cbv zeta. cbn [dragged set_mousePos mode].
    destruct (dragged s) as [d' |] eqn:Ed; [exact Ed |].
    destruct (mode s); exact Ed. }
  intros d Hd. apply (proj2 (proj2 Hs) d).
  rewrite <- D. exact Hd.
Qed.

Lemma mouseUp_ok (s : BezierApp.t) :
  free_interior s ->
  fixed_kept s (mouseUp s) /\ free_interior (mouseUp s).
Proof.
  intros Hs.
  assert (K : fixed_kept s (mouseUp s)).
  { unfold mouseUp. destruct (dragged s) as [d |]; [| apply fixed_kept_refl].
    apply (set_isDragging_fixed_kept d false s). }
  split; [exact K |].
  apply (free_interior_kept s _ Hs K).
  assert (D : dragged (mouseUp s) = None).
  { unfold mouseUp. destruct (dragged s) as [d' |] eqn:Ed;
      [reflexivity | exact Ed]. }
  intros d Hd. rewrite D in Hd. discriminate Hd.
Qed.

Lemma reset_ok (s : BezierApp.t) :
  free_interior s ->
  fixed_kept s (reset s) /\ free_interior (reset s).
Proof.
  intros Hs.
  assert (K : fixed_kept s (reset s)).
  { destruct Hs as (H1 & H2 & _).
    destruct s as [cv [[a b c d] cu tg sg] ph md dr mp lt f].
    cbn in H1, H2.
    intros []; cbn; split; auto; intros Hfix; congruence. }
  split; [exact K |].
  apply (free_interior_kept s _ Hs K).
  intros d Hd. discriminate Hd.
Qed.

Lemma updatePhysics_fixed_kept (dt : R) (s : BezierApp.t) :
  fixed_kept s (updatePhysics dt s).
Proof.
  unfold updatePhysics, Points.ids. cbn [fold_left].
  repeat (eapply fixed_kept_trans;
          [| apply set_point_fixed_kept;
             [ apply applyPhysics_frame
             | intros Hfix;
               rewrite applyPhysics_suspended by (rewrite Hfix; reflexivity);
               reflexivity ] ]).
  apply fixed_kept_refl.
Qed.

Lemma updatePhysics_dragged (dt : R) (s : BezierApp.t) :
  dragged (updatePhysics dt s) = dragged s.
Proof. reflexivity. Qed.

Lemma loop_ok (timestamp : R) (s : BezierApp.t) :
  free_interior s ->
  fixed_kept s (loop timestamp s) /\ free_interior (loop timestamp s).
Proof.
  intros Hs.
  assert (K : fixed_kept s (loop timestamp s)).
  { unfold loop. cbv zeta.
    set (dt := Rmin _ _).
    intros i.
    destruct (updatePhysics_fixed_kept dt (set_lastTime s timestamp) i)
      as [F Q].
    unfold point in *. cbn [curve set_curve] in *.
    rewrite update_eq. cbn [BezierCurve.points].
    split; [exact F | exact Q]. }
  split; [exact K |].
  apply (free_interior_kept s _ Hs K).
  intros d Hd. apply (proj2 (proj2 Hs) d). exact Hd.
Qed.

(** A handler that writes neither a control point nor [dragged]. *)
Lemma untouched_ok (s s' : BezierApp.t) :
  BezierCurve.points (curve s') = BezierCurve.points (curve s) ->
  dragged s' = dragged s ->
  free_interior s ->
  fixed_kept s s' /\ free_interior s'.
Proof.
  intros Hp Hd Hs.
  assert (K : fixed_kept s s').
  { intros i. unfold point. rewrite Hp. auto. }
  split; [exact K |].
  apply (free_interior_kept s _ Hs K).
  intros d E. apply (proj2 (proj2 Hs) d). congruence.
Qed.

Lemma handle_ok (ev : Event) (s : BezierApp.t) :
  free_interior s ->
  fixed_kept s (handle s ev) /\ free_interior (handle s ev).
Proof.
  intros Hs. destruct ev; cbn [handle].
  - apply mouseDown_ok, Hs.
  - apply mouseMove_ok, Hs.
  - apply mouseUp_ok, Hs.
  - apply mouseUp_ok, Hs.
  - apply untouched_ok; [reflexivity | reflexivity | exact Hs].
  - apply untouched_ok; [reflexivity | reflexivity | exact Hs].
  - apply reset_ok, Hs.
  - apply untouched_ok; [reflexivity | reflexivity | exact Hs].
  - pose proof (handleMotion_fixed_kept e s) as K.
    split; [exact K |].
    apply (free_interior_kept s _ Hs K).
    intros d Hd. apply (proj2 (proj2 Hs) d). rewrite <- Hd.
    unfold handleMotion. destruct (mode s); [reflexivity |].
    destruct (rotationRate e); reflexivity.
  - apply loop_ok, Hs.
Qed.

Lemma run_ok (evs : list Event) (s : BezierApp.t) :
  free_interior s ->
  fixed_kept s (run evs s) /\ free_interior (run evs s).
Proof.
  revert s. induction evs as [| ev evs IH]; intros s Hs.
  - split; [apply fixed_kept_refl | exact Hs].
  - cbn [run fold_left].
    destruct (handle_ok ev s Hs) as [K1 Hs1].
    destruct (IH _ Hs1) as [K2 Hs2].
    split; [| exact Hs2].
    eapply fixed_kept_trans; [exact K1 | exact K2].
Qed.

Lemma new_free_interior : free_interior BezierApp.new.
Proof.
  split; [reflexivity | split; [reflexivity |]].
  intros d Hd. discriminate Hd.
Qed.

End FixedPoints.

(** C7 -- A control point constructed with [isFixed = true] stays fixed and
    keeps the position it was constructed with: in every state the app
    reaches from its constructor through any sequence of events (mouse down,
    move, up and leave, slider input, reset, mode switch, device motion,
    animation frame), after any further event, and after a physics step with
    any arguments. *)
Theorem fixed_point_never_moves
  (evs : list BezierApp.Event) (i : PointId) :
  ControlPoint.isFixed (BezierApp.point i BezierApp.new) = true ->
  let s := BezierApp.run evs BezierApp.new in
  let start := ControlPoint.position (BezierApp.point i BezierApp.new) in
  ControlPoint.isFixed (BezierApp.point i s) = true
  /\ ControlPoint.position (BezierApp.point i s) = start
  /\ (forall ev : BezierApp.Event,
        ControlPoint.position (BezierApp.point i (BezierApp.handle s ev))
        = start)
  /\ (forall dt : R,
        ControlPoint.position (BezierApp.point i (BezierApp.updatePhysics dt s))
        = start)
  /\ (forall stiffness damping dt : R,
        ControlPoint.position
          (ControlPoint.applyPhysics stiffness damping dt (BezierApp.point i s))
        = start).
Proof.
  intros Hfix s start.
  destruct (run_ok evs BezierApp.new new_free_interior) as [K Hs].
  destruct (K i) as [F Q]. fold s in F, Q, Hs.
  assert (Fs : ControlPoint.isFixed (BezierApp.point i s) = true)
    by congruence.
  assert (Qs : ControlPoint.position (BezierApp.point i s) = start)
    by (apply Q, Hfix).
  split; [exact Fs |]. split; [exact Qs |]. split; [| split].
  - intros ev. destruct (handle_ok ev s Hs) as [Kev _].
    rewrite (proj2 (Kev i) Fs). exact Qs.
  - intros dt.
    rewrite (proj2 (updatePhysics_fixed_kept dt s i) Fs). exact Qs.
  - intros stiffness damping dt.
    rewrite applyPhysics_suspended by (rewrite Fs; reflexivity). exact Qs.
Qed.

(** The pointer is pressed on the fixed end point [p0] and moved away, the
    app is reset, a motion event and two frames follow: [p0] is still at
    [(160, 250)]. *)
Lemma fixed_point_never_moves_witness :
  let rect := BezierApp.mkRect 0 0 in
  let evs :=
    [ BezierApp.Emousedown rect (BezierApp.mkMouse 160 250);
      BezierApp.Emousemove rect (BezierApp.mkMouse 10 10);
      BezierApp.Emouseup;
      BezierApp.EresetClick;
      BezierApp.EmodeClick;
      BezierApp.Edevicemotion
        (BezierApp.mkMotion (Some (BezierApp.mkRate (Some 3) None)));
      BezierApp.Eframe 16;
      BezierApp.Eframe 33 ] in
  ControlPoint.position (BezierApp.p0 (BezierApp.run evs BezierApp.new))
  = Vector2.new (800 * 0.2) (500 * 0.5).
Proof.
  intros rect evs.
  exact (proj1 (proj2 (fixed_point_never_moves evs P0 eq_refl))).
Defined.

(* ================================================================= *)
(** ** Repeated steps towards a resting target *)

Section Spring.

Import ControlPoint.

Lemma steps_S (k c h : R) (n : nat) (cp : ControlPoint.t) :
  steps k c h (S n) cp = applyPhysics k c h (steps k c h n cp).
Proof. reflexivity. Qed.

Lemma steps_linear (k c h : R) (cp : ControlPoint.t) (n : nat) :
  isFixed cp = false -> isDragging cp = false ->
  velocity cp = Vector2.new 0 0 ->
  let d0 := Vector2.subtract (position cp) (target cp) in
  let cpn := steps k c h n cp in
  position cpn
  = Vector2.add (target cp) (Vector2.multiply d0 (fst (coef k c h n)))
  /\ velocity cpn = Vector2.multiply d0 (snd (coef k c h n))
  /\ target cpn = target cp
  /\ isFixed cpn = false
  /\ isDragging cpn = false.
Proof.
  intros Hf Hd Hv d0 cpn. subst cpn.
  induction n as [| n (IHp & IHv & IHt & IHf & IHd)].
  - change (steps k c h 0 cp) with cp. cbn [coef fst snd].
    repeat split; try assumption.
    + apply vector2_ext; simpl; ring.
    + rewrite Hv. apply vector2_ext; simpl; ring.
  - rewrite steps_S.
    rewrite (applyPhysics_free k c h _ IHf IHd).
    cbn [position velocity target isFixed isDragging].
    unfold integrated_velocity. rewrite IHp, IHv, IHt.
    cbn [coef]. destruct (coef k c h n) as [a b].
    cbn [spring_step fst snd].
    repeat split; apply vector2_ext; simpl; ring.
Qed.

Lemma gap_steps (k c h : R) (cp : ControlPoint.t) (n : nat) :
  isFixed cp = false -> isDragging cp = false ->
  velocity cp = Vector2.new 0 0 ->
  gap (steps k c h n cp) = Rabs (fst (coef k c h n)) * gap cp.
Proof.
  intros Hf Hd Hv.
  destruct (steps_linear k c h cp n Hf Hd Hv) as (Hp & _ & Ht & _).
  unfold gap, Vector2.distanceTo. rewrite Hp, Ht.
  rewrite <- length_multiply. f_equal.
  apply vector2_ext; simpl; ring.
Qed.

(** *** The default coefficients: stiffness 0.08, damping 0.92, dt 1/60 *)

(** Along the run the displacement factor [a] stays in [(0, 1]], the
    velocity factor [b] in [[-0.06 a, 0]]; [a] loses at most the fraction
    [4531/4500000] per step, and [a + 0.675 b] shrinks by the factor
    [0.9991] per step. *)
Lemma coef60_invariant (n : nat) :
  let (a, b) := coef60 n in
  0 < a <= 1
  /\ - 0.06 * a <= b <= 0
  /\ 1 - INR n * (4531 / 4500000) <= a
  /\ a + 0.675 * b <= 0.9991 ^ n.
Proof.
  induction n as [| n IH].
  - cbn [coef60 coef pow INR]. lra.
  - unfold coef60 in *. cbn [coef]. rewrite S_INR.
    destruct (coef 0.08 0.92 (1 / 60) n) as [a b].
    cbn [spring_step pow]. unfold decay.
    destruct IH as ((Ha0 & Ha1) & (Hb0 & Hb1) & HL & HU).
    repeat split; lra.
Qed.

Lemma coef60_decreasing (n : nat) : fst (coef60 (S n)) <= fst (coef60 n).
Proof.
  pose proof (coef60_invariant n) as H.
  unfold coef60 in *. cbn [coef].
  destruct (coef 0.08 0.92 (1 / 60) n) as [a b].
  cbn [spring_step fst]. lra.
Qed.

Lemma coef60_antitone (n m : nat) :
  (n <= m)%nat -> fst (coef60 m) <= fst (coef60 n).
Proof.
  induction 1 as [| m _ IH]; [lra |].
  pose proof (coef60_decreasing m). lra.
Qed.

Lemma coef60_range (n : nat) : 0 < fst (coef60 n) <= 1.
Proof.
  pose proof (coef60_invariant n) as H.
  destruct (coef60 n) as [a b]. cbn [fst]. tauto.
Qed.

(** Bernoulli's inequality for [1/x], read as a bound on the powers of
    [x]. *)
Lemma pow_decay_bound (x : R) (n : nat) :
  0 < x < 1 -> x ^ n * (1 + INR n * (1 / x - 1)) <= 1.
Proof.
  intros [H0 H1].
  assert (Hy : 0 < 1 / x - 1).
  { assert (1 < 1 / x); [| lra].
    apply (Rmult_lt_reg_r x); [exact H0 |].
    replace (1 / x * x) with 1 by (field; lra). lra. }
  pose proof (poly n (1 / x - 1) Hy) as B.
  replace (1 + (1 / x - 1)) with (1 / x) in B by ring.
  assert (E : x ^ n * (1 / x) ^ n = 1).
  { rewrite <- Rpow_mult_distr.
    replace (x * (1 / x)) with 1 by (field; lra).
    apply pow1. }
  assert (P : 0 < x ^ n) by (apply pow_lt; exact H0).
  apply Rle_trans with (x ^ n * (1 / x) ^ n).
  - apply Rmult_le_compat_l; [apply Rlt_le, P | exact B].
  - apply Req_le, E.
Qed.

Lemma pow_half : 0.9991 ^ 1111 <= 1 / 2.
Proof.
  assert (Hx : 0 < 0.9991 < 1) by lra.
  pose proof (pow_decay_bound 0.9991 1111 Hx) as B.
  assert (P : 0 < 0.9991 ^ 1111) by (apply pow_lt; apply Hx).
  replace (INR 1111) with 1111 in B
    by (rewrite INR_IZR_INZ; reflexivity).
  revert B P. generalize (0.9991 ^ 1111). intros p B P.
  assert (C : 2 <= 1 + 1111 * (1 / 0.9991 - 1)) by lra.
  assert (M : p * 2 <= p * (1 + 1111 * (1 / 0.9991 - 1)))
    by (apply Rmult_le_compat_l; lra).
  lra.
Qed.

Lemma pow_8888 : 0.9991 ^ (1111 * 8) <= 1 / 256.
Proof.
  assert (E8 : (1 / 2) ^ 8 = 1 / 256) by (simpl; lra).
  assert (H0 : 0 <= 0.9991) by lra.
  rewrite pow_mult, <- E8.
  apply pow_incr. split; [apply pow_le; exact H0 | exact pow_half].
Qed.

Lemma coef60_late : fst (coef60 (1111 * 8)) <= 1 / 200.
Proof.
  pose proof (coef60_invariant (1111 * 8)) as H.
  pose proof pow_8888 as P.
  revert H P. generalize (0.9991 ^ (1111 * 8)). intros p H P.
  destruct (coef60 (1111 * 8)) as [a b]. cbn [fst].
  destruct H as (_ & (Hb0 & _) & _ & HU). lra.
Qed.

Lemma coef60_early (n : nat) :
  (n <= 300)%nat -> 139 / 200 < fst (coef60 n).
Proof.
  intros Hn.
  pose proof (coef60_invariant n) as H.
  apply le_INR in Hn.
  replace (INR 300) with 300 in Hn by (rewrite INR_IZR_INZ; reflexivity).
  destruct (coef60 n) as [a b]. cbn [fst].
  destruct H as (_ & _ & HL & _). lra.
Qed.

End Spring.

Lemma displaced_gap : gap displaced = 200.
Proof.
  unfold gap, Vector2.distanceTo, Vector2.length. simpl.
  replace ((320 - 520) * (320 - 520) + (150 - 150) * (150 - 150))
    with (200 * 200) by lra.
  apply sqrt_square. lra.
Qed.

Lemma gap_steps60 (cp : ControlPoint.t) (n : nat) :
  ControlPoint.isFixed cp = false ->
  ControlPoint.isDragging cp = false ->
  ControlPoint.velocity cp = Vector2.new 0 0 ->
  gap (steps60 n cp) = fst (coef60 n) * gap cp.
Proof.
  intros Hf Hd Hv. unfold steps60.
  rewrite (gap_steps _ _ _ cp n Hf Hd Hv).
  fold (coef60 n).
  rewrite Rabs_right; [reflexivity |].
  pose proof (coef60_range n). lra.
Qed.

(** C3, as stated, fails -- From 200 units away the point is not within 1
    unit of its target after any number of steps below 300. *)
Lemma spring_not_within_300 :
  ControlPoint.isFixed displaced = false
  /\ ControlPoint.isDragging displaced = false
  /\ ControlPoint.velocity displaced = Vector2.new 0 0
  /\ gap displaced = 200
  /\ ~ (exists n : nat, (n < 300)%nat /\ gap (steps60 n displaced) <= 1).
Proof.
  split; [reflexivity |]. split; [reflexivity |]. split; [reflexivity |].
  split; [exact displaced_gap |].
  intros (n & Hn & Hg).
  rewrite (gap_steps60 displaced n eq_refl eq_refl eq_refl) in Hg.
  rewrite displaced_gap in Hg.
  assert (Hle : (n <= 300)%nat) by lia.
  pose proof (coef60_early n Hle). lra.
Qed.

(** C3, amended -- With [stiffness = 0.08], [damping = 0.92] and
    [dt = 1/60], a free point that starts at rest 200 units from its target
    never moves away from it: the distance does not grow from one step to the
    next and never exceeds 200.  The approach is slow: after any number of
    steps up to 300 the distance is still above 139.  From step 8888
    (= 1111 * 8) on it is at most 1. *)
Theorem spring_settles (cp : ControlPoint.t) :
  ControlPoint.isFixed cp = false ->
  ControlPoint.isDragging cp = false ->
  ControlPoint.velocity cp = Vector2.new 0 0 ->
  gap cp = 200 ->
  (forall n : nat,
     gap (steps60 (S n) cp) <= gap (steps60 n cp)
     /\ gap (steps60 n cp) <= 200)
  /\ (forall n : nat, (n <= 300)%nat -> 139 < gap (steps60 n cp))
  /\ (forall n : nat, (1111 * 8 <= n)%nat -> gap (steps60 n cp) <= 1).
Proof.
  intros Hf Hd Hv Hg.
  split; [| split].
  - intros n. rewrite !(gap_steps60 cp _ Hf Hd Hv), Hg.
    pose proof (coef60_decreasing n). pose proof (coef60_range n).
    split; lra.
  - intros n Hn. rewrite (gap_steps60 cp _ Hf Hd Hv), Hg.
    pose proof (coef60_early n Hn). lra.
  - intros n Hn. rewrite (gap_steps60 cp _ Hf Hd Hv), Hg.
    pose proof (coef60_antitone _ _ Hn) as Ha.
    pose proof coef60_late as Hl.
    lra.
Qed.

Lemma spring_settles_witness :
  gap (steps60 1 displaced) <= gap (steps60 0 displaced)
  /\ 139 < gap (steps60 300 displaced)
  /\ gap (steps60 (1111 * 8) displaced) <= 1.
Proof.
  destruct (spring_settles displaced eq_refl eq_refl eq_refl displaced_gap)
    as (Hmono & Hearly & Hlate).
  split; [exact (proj1 (Hmono 0%nat)) |].
  split; [apply Hearly; apply le_n |].
  apply Hlate. apply le_n.
Defined.

(* ================================================================= *)
(** ** Further properties of [Vector2] *)

Section Vector2More.

Import Vector2.

Lemma length_opp (v w : Vector2.t) :
  length (subtract v w) = length (subtract w v).
Proof.
  unfold length; simpl. f_equal. ring.
Qed.

Lemma normalize_zero_length (v : Vector2.t) :
  length v = 0 -> normalize v = new 0 0.
Proof.
  intros H. unfold normalize.
  destruct (Req_dec_T (length v) 0); [reflexivity | contradiction].
Qed.

(** No coordinate is longer than the vector. *)
Lemma coordinate_le_length (v : Vector2.t) :
  Rabs (x v) <= length v /\ Rabs (y v) <= length v.
Proof.
  unfold length. split.
  - rewrite <- (sqrt_Rsqr_abs (x v)). apply sqrt_le_1_alt.
    unfold Rsqr. nra.
  - rewrite <- (sqrt_Rsqr_abs (y v)). apply sqrt_le_1_alt.
    unfold Rsqr. nra.
Qed.

(** A number divided by a bound of its absolute value. *)
Lemma ratio_bounds (a l : R) :
  Rabs a <= l -> l <> 0 ->
  - 1 <= a / l <= 1
  /\ (0 <= a -> 0 <= a / l)
  /\ (a <= 0 -> a / l <= 0).
Proof.
  intros Ha Hl.
  assert (Hpos : 0 < l).
  { pose proof (Rabs_pos a). lra. }
  assert (Hi : 0 < / l) by (apply Rinv_0_lt_compat; exact Hpos).
  assert (Hli : l * / l = 1) by (apply Rinv_r; exact Hl).
  pose proof (Rle_abs a) as U.
  pose proof (Rle_abs (- a)) as L. rewrite Rabs_Ropp in L.
  unfold Rdiv. repeat split; intros; nra.
Qed.

End Vector2More.

(** [distanceTo] does not depend on the order of the two vectors, is never
    negative, and is zero from a vector to itself; so a control point whose
    radius is not negative contains its own position. *)
Theorem distanceTo_symmetric (v w : Vector2.t) :
  Vector2.distanceTo v w = Vector2.distanceTo w v
  /\ 0 <= Vector2.distanceTo v w
  /\ Vector2.distanceTo v v = 0
  /\ (forall cp : ControlPoint.t,
        0 <= ControlPoint.radius cp ->
        ControlPoint.contains cp (ControlPoint.position cp) = true).
Proof.
  assert (Z : forall u : Vector2.t, Vector2.distanceTo u u = 0).
  { intros u. unfold Vector2.distanceTo.
    replace (Vector2.subtract u u) with (Vector2.new 0 0)
      by (apply vector2_ext; simpl; ring).
    apply length_zero. }
  split; [apply length_opp |].
  split; [apply length_nonneg |].
  split; [apply Z |].
  intros cp Hr. unfold ControlPoint.contains. rewrite Z.
  destruct (Rle_dec 0 (ControlPoint.radius cp)) as [_ | N];
    [reflexivity | contradiction].
Qed.

(** [normalize] never yields a coordinate outside [[-1, 1]] and never turns
    a coordinate to the other side of zero. *)
Theorem normalize_bounded (v : Vector2.t) :
  (- 1 <= Vector2.x (Vector2.normalize v) <= 1
   /\ - 1 <= Vector2.y (Vector2.normalize v) <= 1)
  /\ (0 <= Vector2.x v -> 0 <= Vector2.x (Vector2.normalize v))
  /\ (Vector2.x v <= 0 -> Vector2.x (Vector2.normalize v) <= 0)
  /\ (0 <= Vector2.y v -> 0 <= Vector2.y (Vector2.normalize v))
  /\ (Vector2.y v <= 0 -> Vector2.y (Vector2.normalize v) <= 0).
Proof.
  destruct (Req_dec_T (Vector2.length v) 0) as [E | N].
  - rewrite (normalize_zero_length v E). simpl.
    repeat split; intros; lra.
  - rewrite (normalize_nonzero v N). simpl.
    destruct (coordinate_le_length v) as [Hx Hy].
    destruct (ratio_bounds _ _ Hx N) as (Bx & Px & Nx).
    destruct (ratio_bounds _ _ Hy N) as (By & Py & Ny).
    repeat split; solve [lra | assumption].
Qed.

(* ================================================================= *)
(** ** Further properties of the integrator *)

Section SpringMore.

Lemma applyPhysics_at_rest (k c h : R) (cp : ControlPoint.t) :
  at_rest cp -> ControlPoint.applyPhysics k c h cp = cp.
Proof.
  intros [Hp Hv].
  destruct (ControlPoint.isFixed cp || ControlPoint.isDragging cp) eqn:E.
  - apply applyPhysics_suspended, E.
  - apply orb_false_iff in E as [Hf Hd].
    rewrite (applyPhysics_free k c h cp Hf Hd).
    destruct cp as [p v t f d r]. simpl in *. subst p v f d.
    unfold integrated_velocity, ControlPoint.decay. simpl.
    f_equal; apply vector2_ext; simpl; lra.
Qed.

Lemma steps_at_rest (k c h : R) (n : nat) (cp : ControlPoint.t) :
  at_rest cp -> ControlPoint.steps k c h n cp = cp.
Proof.
  intros H. induction n as [| n IH]; [reflexivity |].
  rewrite steps_S, IH. apply applyPhysics_at_rest, H.
Qed.

(** One coordinate of a point through [n] steps: [axis] is [Vector2.x] or
    [Vector2.y]. *)
Lemma applyPhysics_axis (axis : Vector2.t -> R) :
  axis = Vector2.x \/ axis = Vector2.y ->
  forall (k c h : R) (cp cp' : ControlPoint.t),
    ControlPoint.isFixed cp = ControlPoint.isFixed cp'
    /\ ControlPoint.isDragging cp = ControlPoint.isDragging cp'
    /\ axis (ControlPoint.position cp) = axis (ControlPoint.position cp')
    /\ axis (ControlPoint.velocity cp) = axis (ControlPoint.velocity cp')
    /\ axis (ControlPoint.target cp) = axis (ControlPoint.target cp') ->
    let q := ControlPoint.applyPhysics k c h cp in
    let q' := ControlPoint.applyPhysics k c h cp' in
    ControlPoint.isFixed q = ControlPoint.isFixed q'
    /\ ControlPoint.isDragging q = ControlPoint.isDragging q'
    /\ axis (ControlPoint.position q) = axis (ControlPoint.position q')
    /\ axis (ControlPoint.velocity q) = axis (ControlPoint.velocity q')
    /\ axis (ControlPoint.target q) = axis (ControlPoint.target q').
Proof.
  intros Hax k c h cp cp' (Hf & Hd & Hp & Hv & Ht) q q'. subst q q'.
  unfold ControlPoint.applyPhysics. rewrite <- Hf, <- Hd.
  destruct (ControlPoint.isFixed cp || ControlPoint.isDragging cp).
  - repeat split; assumption.
  - destruct Hax as [-> | ->]; simpl in *;
      rewrite Hp, Hv, Ht; repeat split; assumption.
Qed.

Lemma steps_axis (axis : Vector2.t -> R) :
  axis = Vector2.x \/ axis = Vector2.y ->
  forall (k c h : R) (n : nat) (cp cp' : ControlPoint.t),
    ControlPoint.isFixed cp = ControlPoint.isFixed cp'
    /\ ControlPoint.isDragging cp = ControlPoint.isDragging cp'
    /\ axis (ControlPoint.position cp) = axis (ControlPoint.position cp')
    /\ axis (ControlPoint.velocity cp) = axis (ControlPoint.velocity cp')
    /\ axis (ControlPoint.target cp) = axis (ControlPoint.target cp') ->
    let q := ControlPoint.steps k c h n cp in
    let q' := ControlPoint.steps k c h n cp' in
    ControlPoint.isFixed q = ControlPoint.isFixed q'
    /\ ControlPoint.isDragging q = ControlPoint.isDragging q'
    /\ axis (ControlPoint.position q) = axis (ControlPoint.position q')
    /\ axis (ControlPoint.velocity q) = axis (ControlPoint.velocity q')
    /\ axis (ControlPoint.target q) = axis (ControlPoint.target q').
Proof.
  intros Hax k c h n cp cp' H. cbv zeta.
  induction n as [| n IH]; [exact H |].
  rewrite !steps_S. apply (applyPhysics_axis axis Hax k c h _ _ IH).
Qed.

End SpringMore.

(** A relaxed spring stays relaxed -- A control point that sits on its
    target with zero velocity is returned unchanged by [applyPhysics], for
    all coefficients and every time step, and so by any number of steps. *)
Theorem applyPhysics_equilibrium
  (stiffness damping dt : R) (cp : ControlPoint.t) :
  ControlPoint.position cp = ControlPoint.target cp ->
  ControlPoint.velocity cp = Vector2.new 0 0 ->
  ControlPoint.applyPhysics stiffness damping dt cp = cp
  /\ forall n : nat, ControlPoint.steps stiffness damping dt n cp = cp.
Proof.
  intros Hp Hv. split.
  - apply applyPhysics_at_rest. split; assumption.
  - intros n. apply steps_at_rest. split; assumption.
Qed.

(** The first end-to-end scenario: [p1] of a fresh app, 600 steps. *)
Lemma applyPhysics_equilibrium_witness :
  ControlPoint.steps 0.08 0.92 (1 / 60) 600 (BezierApp.p1 BezierApp.new)
  = BezierApp.p1 BezierApp.new.
Proof.
  exact (proj2 (applyPhysics_equilibrium 0.08 0.92 (1 / 60)
                  (BezierApp.p1 BezierApp.new) eq_refl eq_refl) 600%nat).
Defined.

(** The axes do not interact -- The [x] coordinates of the position and of
    the velocity after any number of steps depend on the [x] coordinates of
    position, velocity and target and on the two flags only, and likewise
    for [y]: two points that agree on those agree on the results, whatever
    their other coordinates. *)
Theorem steps_axes_independent
  (stiffness damping dt : R) (n : nat) (cp cp' : ControlPoint.t) :
  ControlPoint.isFixed cp = ControlPoint.isFixed cp' ->
  ControlPoint.isDragging cp = ControlPoint.isDragging cp' ->
  let cpn := ControlPoint.steps stiffness damping dt n cp in
  let cpn' := ControlPoint.steps stiffness damping dt n cp' in
  (Vector2.x (ControlPoint.position cp) = Vector2.x (ControlPoint.position cp')
   -> Vector2.x (ControlPoint.velocity cp)
      = Vector2.x (ControlPoint.velocity cp')
   -> Vector2.x (ControlPoint.target cp) = Vector2.x (ControlPoint.target cp')
   -> Vector2.x (ControlPoint.position cpn)
      = Vector2.x (ControlPoint.position cpn')
      /\ Vector2.x (ControlPoint.velocity cpn)
         = Vector2.x (ControlPoint.velocity cpn'))
  /\ (Vector2.y (ControlPoint.position cp)
      = Vector2.y (ControlPoint.position cp')
      -> Vector2.y (ControlPoint.velocity cp)
         = Vector2.y (ControlPoint.velocity cp')
      -> Vector2.y (ControlPoint.target cp)
         = Vector2.y (ControlPoint.target cp')
      -> Vector2.y (ControlPoint.position cpn)
         = Vector2.y (ControlPoint.position cpn')
         /\ Vector2.y (ControlPoint.velocity cpn)
            = Vector2.y (ControlPoint.velocity cpn')).
Proof.
  intros Hf Hd cpn cpn'. subst cpn cpn'.
  split.
  - intros Hp Hv Ht.
    destruct (steps_axis Vector2.x (or_introl eq_refl) stiffness damping dt n
                cp cp' (conj Hf (conj Hd (conj Hp (conj Hv Ht)))))
      as (_ & _ & Hp' & Hv' & _).
    split; assumption.
  - intros Hp Hv Ht.
    destruct (steps_axis Vector2.y (or_intror eq_refl) stiffness damping dt n
                cp cp' (conj Hf (conj Hd (conj Hp (conj Hv Ht)))))
      as (_ & _ & Hp' & Hv' & _).
    split; assumption.
Qed.

(** [displaced] and a point with another [y] everywhere. *)
Lemma steps_axes_independent_witness :
  Vector2.x
    (ControlPoint.position
       (ControlPoint.steps 0.08 0.92 (1 / 60) 5 displaced))
  = Vector2.x
      (ControlPoint.position
         (ControlPoint.steps 0.08 0.92 (1 / 60) 5
            (ControlPoint.set_target (ControlPoint.new 320 40 false)
                                     (Vector2.new 520 900)))).
Proof.
  refine (proj1 (proj1 (steps_axes_independent 0.08 0.92 (1 / 60) 5 displaced
                   (ControlPoint.set_target (ControlPoint.new 320 40 false)
                                            (Vector2.new 520 900))
                   eq_refl eq_refl) _ _ _)); reflexivity.
Defined.

(** No overshoot with the default coefficients -- With [stiffness = 0.08],
    [damping = 0.92] and [dt = 1/60], a free point started at rest, at any
    distance from its target, moves towards it and never passes it: on each
    axis the coordinate goes from the start towards the target without ever
    turning back or crossing it, the velocity never points away from the
    target, the target stays where it is, and the distance to the target
    does not grow from one step to the next. *)
Theorem default_spring_no_overshoot (cp : ControlPoint.t) (n : nat) :
  ControlPoint.isFixed cp = false ->
  ControlPoint.isDragging cp = false ->
  ControlPoint.velocity cp = Vector2.new 0 0 ->
  let p k := ControlPoint.position (steps60 k cp) in
  let v k := ControlPoint.velocity (steps60 k cp) in
  let start := ControlPoint.position cp in
  let goal := ControlPoint.target cp in
  ControlPoint.target (steps60 n cp) = goal
  /\ (Vector2.x start <= Vector2.x goal ->
      Vector2.x start <= Vector2.x (p n) <= Vector2.x (p (S n))
      /\ Vector2.x (p (S n)) <= Vector2.x goal
      /\ 0 <= Vector2.x (v n))
  /\ (Vector2.x goal <= Vector2.x start ->
      Vector2.x (p (S n)) <= Vector2.x (p n) <= Vector2.x start
      /\ Vector2.x goal <= Vector2.x (p (S n))
      /\ Vector2.x (v n) <= 0)
  /\ (Vector2.y start <= Vector2.y goal ->
      Vector2.y start <= Vector2.y (p n) <= Vector2.y (p (S n))
      /\ Vector2.y (p (S n)) <= Vector2.y goal
      /\ 0 <= Vector2.y (v n))
  /\ (Vector2.y goal <= Vector2.y start ->
      Vector2.y (p (S n)) <= Vector2.y (p n) <= Vector2.y start
      /\ Vector2.y goal <= Vector2.y (p (S n))
      /\ Vector2.y (v n) <= 0)
  /\ gap (steps60 (S n) cp) <= gap (steps60 n cp) <= gap cp.
Proof.
  intros Hf Hd Hv p v start goal. subst p v start goal. cbv beta.
  destruct (steps_linear 0.08 0.92 (1 / 60) cp n Hf Hd Hv)
    as (Hp & Hvn & Ht & _).
  destruct (steps_linear 0.08 0.92 (1 / 60) cp (S n) Hf Hd Hv)
    as (Hp' & _).
  fold (steps60 n cp) in Hp, Hvn, Ht. fold (steps60 (S n) cp) in Hp'.
  fold (coef60 n) in Hp, Hvn. fold (coef60 (S n)) in Hp'.
  pose proof (coef60_range n) as Hr.
  pose proof (coef60_range (S n)) as Hr'.
  pose proof (coef60_decreasing n) as Hdec.
  assert (Hb : snd (coef60 n) <= 0).
  { pose proof (coef60_invariant n) as Hinv.
    destruct (coef60 n) as [a b]. cbn [snd]. tauto. }
  assert (Hg : 0 <= gap cp) by apply length_nonneg.
  rewrite !(gap_steps60 cp _ Hf Hd Hv).
  rewrite Hp, Hp', Hvn. simpl.
  set (a := fst (coef60 n)) in *. set (a' := fst (coef60 (S n))) in *.
  set (b := snd (coef60 n)) in *.
  split; [exact Ht |].
  split; [intros H; repeat split; nra |].
  split; [intros H; repeat split; nra |].
  split; [intros H; repeat split; nra |].
  split; [intros H; repeat split; nra |].
  generalize dependent (gap cp). intros g Hg.
  assert (a' * g <= a * g)
    by (apply Rmult_le_compat_r; [exact Hg | exact Hdec]).
  assert (a * g <= 1 * g)
    by (apply Rmult_le_compat_r; [exact Hg | apply Hr]).
  lra.
Qed.

Lemma default_spring_no_overshoot_witness :
  Vector2.x (ControlPoint.position displaced)
  <= Vector2.x (ControlPoint.target displaced)
  /\ Vector2.x (ControlPoint.position (steps60 60 displaced))
     <= Vector2.x (ControlPoint.position (steps60 61 displaced))
  /\ Vector2.x (ControlPoint.position (steps60 61 displaced))
     <= Vector2.x (ControlPoint.target displaced)
  /\ 0 <= Vector2.x (ControlPoint.velocity (steps60 60 displaced)).
Proof.
  assert (H : Vector2.x (ControlPoint.position displaced)
              <= Vector2.x (ControlPoint.target displaced))
    by (simpl; lra).
  split; [exact H |].
  destruct (default_spring_no_overshoot displaced 60 eq_refl eq_refl eq_refl)
    as (_ & Hx & _).
  destruct (Hx H) as ((_ & H1) & H2 & H3).
  split; [exact H1 |]. split; [exact H2 | exact H3].
Defined.

(* ================================================================= *)
(** ** Further properties of the curve *)

Section CurveMore.

Import BezierCurve.

Lemma cubic_derivative (c0 c1 c2 c3 t : R) :
  derivable_pt_lim
    (fun s => c0 + c1 * s + c2 * (s * s) + c3 * (s * s * s)) t
    (c1 + 2 * c2 * t + 3 * c3 * (t * t)).
Proof.
  pose proof (derivable_pt_lim_const c0 t) as D0.
  pose proof (derivable_pt_lim_scal id c1 t 1 (derivable_pt_lim_id t)) as D1.
  pose proof (derivable_pt_lim_scal _ c2 t _ (derivable_pt_lim_pow t 2)) as D2.
  pose proof (derivable_pt_lim_scal _ c3 t _ (derivable_pt_lim_pow t 3)) as D3.
  pose proof (derivable_pt_lim_plus _ _ _ _ _
                (derivable_pt_lim_plus _ _ _ _ _
                   (derivable_pt_lim_plus _ _ _ _ _ D0 D1) D2) D3) as D.
  eapply derivable_pt_lim_ext;
    [| replace (c1 + 2 * c2 * t + 3 * c3 * (t * t))
         with (0 + c1 * 1 + c2 * (INR 2 * t ^ Init.Nat.pred 2)
               + c3 * (INR 3 * t ^ Init.Nat.pred 3)); [exact D |]].
  - intros z. unfold plus_fct, mult_real_fct, fct_cte, id. simpl. ring.
  - simpl. ring.
Qed.

(** The Bernstein form of a coordinate of the curve and of its derivative,
    for coordinates [a], [b], [c], [d] of the four control points. *)
Lemma bernstein_derivative (a b c d t : R) :
  derivable_pt_lim
    (fun s => a * ((1 - s) * (1 - s) * (1 - s))
              + b * (3 * ((1 - s) * (1 - s)) * s)
              + c * (3 * (1 - s) * (s * s))
              + d * (s * s * s)) t
    ((b - a) * (3 * (1 - t) * (1 - t))
     + (c - b) * (6 * (1 - t) * t)
     + (d - c) * (3 * t * t)).
Proof.
  eapply derivable_pt_lim_ext;
    [| replace ((b - a) * (3 * (1 - t) * (1 - t))
                + (c - b) * (6 * (1 - t) * t)
                + (d - c) * (3 * t * t))
         with ((3 * b - 3 * a)
               + 2 * (3 * a - 6 * b + 3 * c) * t
               + 3 * (d - 3 * c + 3 * b - a) * (t * t)) by ring;
       apply (cubic_derivative a (3 * b - 3 * a) (3 * a - 6 * b + 3 * c)
                               (d - 3 * c + 3 * b - a) t)].
  intros z. simpl. ring.
Qed.

Lemma calculateTangent_x (bc : BezierCurve.t) (t : R) :
  Vector2.x (calculateTangent bc t) =
  (Vector2.x (pos bc P1) - Vector2.x (pos bc P0)) * (3 * (1 - t) * (1 - t))
  + (Vector2.x (pos bc P2) - Vector2.x (pos bc P1)) * (6 * (1 - t) * t)
  + (Vector2.x (pos bc P3) - Vector2.x (pos bc P2)) * (3 * t * t).
Proof. reflexivity. Qed.

Lemma calculateTangent_y (bc : BezierCurve.t) (t : R) :
  Vector2.y (calculateTangent bc t) =
  (Vector2.y (pos bc P1) - Vector2.y (pos bc P0)) * (3 * (1 - t) * (1 - t))
  + (Vector2.y (pos bc P2) - Vector2.y (pos bc P1)) * (6 * (1 - t) * t)
  + (Vector2.y (pos bc P3) - Vector2.y (pos bc P2)) * (3 * t * t).
Proof. reflexivity. Qed.

End CurveMore.

Ltac curve_coords :=
  apply vector2_ext;
  rewrite ?calculatePoint_x, ?calculatePoint_y,
          ?calculateTangent_x, ?calculateTangent_y.

(** [calculateTangent] is the derivative of [calculatePoint] -- At every
    parameter [t], each coordinate of [calculatePoint] is differentiable in
    the parameter, and its derivative is that coordinate of
    [calculateTangent(t)]. *)
Theorem calculateTangent_is_derivative (bc : BezierCurve.t) (t : R) :
  derivable_pt_lim (fun s => Vector2.x (BezierCurve.calculatePoint bc s)) t
                   (Vector2.x (BezierCurve.calculateTangent bc t))
  /\ derivable_pt_lim (fun s => Vector2.y (BezierCurve.calculatePoint bc s)) t
                      (Vector2.y (BezierCurve.calculateTangent bc t)).
Proof.
  split.
  - rewrite calculateTangent_x.
    eapply derivable_pt_lim_ext; [| apply bernstein_derivative].
    intros z. symmetry. apply calculatePoint_x.
  - rewrite calculateTangent_y.
    eapply derivable_pt_lim_ext; [| apply bernstein_derivative].
    intros z. symmetry. apply calculatePoint_y.
Qed.

(** The curve leaves [P0] towards [P1] and arrives at [P3] from [P2]:
    [calculateTangent(0)] is [(P1 - P0) * 3] and [calculateTangent(1)] is
    [(P3 - P2) * 3]. *)
Theorem calculateTangent_endpoints (bc : BezierCurve.t) :
  BezierCurve.calculateTangent bc 0
  = Vector2.multiply
      (Vector2.subtract (BezierCurve.pos bc P1) (BezierCurve.pos bc P0)) 3
  /\ BezierCurve.calculateTangent bc 1
     = Vector2.multiply
         (Vector2.subtract (BezierCurve.pos bc P3) (BezierCurve.pos bc P2)) 3.
Proof.
  split; curve_coords; simpl; ring.
Qed.

(* ================================================================= *)
(** ** Further properties of [update] *)

Section UpdateMore.

Import BezierCurve.

(** The counters from 0 to [n] that are multiples of 10. *)
Lemma marked_seq (n : nat) :
  filter is_marked (seq 0 (S n))
  = map (fun j => (10 * j)%nat) (seq 0 (S (n / 10))).
Proof.
  induction n as [| n IH]; [reflexivity |].
  rewrite (seq_S (S n) 0), filter_app, IH. cbn [filter Nat.add].
  pose proof (Nat.div_mod_eq n 10) as E.
  pose proof (Nat.mod_upper_bound n 10 ltac:(lia)) as B.
  destruct (Nat.eq_dec (n mod 10) 9) as [H9 | H9].
  - assert (D : (S n / 10 = S (n / 10))%nat).
    { symmetry. apply (Nat.div_unique (S n) 10 (S (n / 10)) 0); lia. }
    assert (M : (S n mod 10 = 0)%nat).
    { symmetry. apply (Nat.mod_unique (S n) 10 (S (n / 10)) 0); lia. }
    unfold is_marked. rewrite M. cbn [Nat.eqb].
    rewrite D, (seq_S (S (n / 10)) 0), map_app. cbn [map Nat.add].
    f_equal. f_equal. lia.
  - assert (D : (S n / 10 = n / 10)%nat).
    { symmetry. apply (Nat.div_unique (S n) 10 (n / 10) (S (n mod 10))); lia. }
    assert (M : (S n mod 10 = S (n mod 10))%nat).
    { symmetry. apply (Nat.mod_unique (S n) 10 (n / 10) (S (n mod 10))); lia. }
    unfold is_marked. rewrite M. cbn [Nat.eqb].
    rewrite D, app_nil_r. reflexivity.
Qed.

Lemma sample_first (bc : BezierCurve.t) : sample bc 0 = pos bc P0.
Proof.
  unfold sample. cbn [INR].
  replace (0 / INR (segments bc)) with 0 by (unfold Rdiv; ring).
  apply vector2_ext; rewrite ?calculatePoint_x, ?calculatePoint_y; ring.
Qed.

Lemma sample_last (bc : BezierCurve.t) :
  (0 < segments bc)%nat -> sample bc (segments bc) = pos bc P3.
Proof.
  intros H. unfold sample.
  replace (INR (segments bc) / INR (segments bc)) with 1.
  - apply vector2_ext; rewrite ?calculatePoint_x, ?calculatePoint_y; ring.
  - field. apply not_0_INR. lia.
Qed.

End UpdateMore.

(** Four control points in one place -- The tangent is zero at every
    parameter, and normalising it gives [(0, 0)]: no division by the zero
    length takes place.  With a positive number of segments [update] stores
    [segments / 10 + 1] markers, and the direction of each is [(0, 0)]. *)
Theorem curve_degenerate (bc : BezierCurve.t) (p : Vector2.t) (t : R) :
  (forall i : PointId, BezierCurve.pos bc i = p) ->
  BezierCurve.calculateTangent bc t = Vector2.new 0 0
  /\ Vector2.normalize (BezierCurve.calculateTangent bc t) = Vector2.new 0 0
  /\ ((0 < BezierCurve.segments bc)%nat ->
      List.length (BezierCurve.tangents (BezierCurve.update bc))
      = S (BezierCurve.segments bc / 10)
      /\ (forall m, In m (BezierCurve.tangents (BezierCurve.update bc)) ->
            BezierCurve.vector m = Vector2.new 0 0)).
Proof.
  intros H.
  assert (T : forall s, BezierCurve.calculateTangent bc s = Vector2.new 0 0)
    by (intros s; curve_coords; rewrite !H; simpl; ring).
  assert (N : forall s, Vector2.normalize (BezierCurve.calculateTangent bc s)
                        = Vector2.new 0 0).
  { intros s. rewrite T. apply normalize_zero_length, length_zero. }
  split; [apply T |]. split; [apply N |].
  intros _. rewrite update_eq. cbn [BezierCurve.tangents].
  split.
  - rewrite marked_seq, !length_map, length_seq. reflexivity.
  - intros m Hm. apply in_map_iff in Hm as (i & <- & _).
    unfold marker. cbn [BezierCurve.vector]. apply N.
Qed.

Lemma curve_degenerate_witness :
  Vector2.normalize
    (BezierCurve.calculateTangent
       (curve_of (Vector2.new 5 7) (Vector2.new 5 7)
                 (Vector2.new 5 7) (Vector2.new 5 7)) (1 / 3))
  = Vector2.new 0 0.
Proof.
  assert (H : forall i : PointId,
             BezierCurve.pos
               (curve_of (Vector2.new 5 7) (Vector2.new 5 7)
                         (Vector2.new 5 7) (Vector2.new 5 7)) i
             = Vector2.new 5 7)
    by (intros i; destruct i; reflexivity).
  destruct (curve_degenerate _ (Vector2.new 5 7) (1 / 3) H)
    as (_ & Hn & _).
  exact Hn.
Defined.

(** [update] for any number of segments -- With [segments = n > 0], [update]
    leaves [n + 1] samples and [n / 10 + 1] markers (integer division).  The
    first sample is the position of [P0] and the last that of [P3].  Marker
    [j] is taken at counter [10 j]: its point is sample [10 j], and its
    direction is the normalised tangent at the parameter [10 j / n]. *)
Theorem update_any_segments (bc : BezierCurve.t) :
  (0 < BezierCurve.segments bc)%nat ->
  let n := BezierCurve.segments bc in
  let bc' := BezierCurve.update bc in
  List.length (BezierCurve.curve bc') = S n
  /\ List.length (BezierCurve.tangents bc') = S (n / 10)
  /\ nth_error (BezierCurve.curve bc') 0 = Some (BezierCurve.pos bc P0)
  /\ nth_error (BezierCurve.curve bc') n = Some (BezierCurve.pos bc P3)
  /\ (forall j : nat, (j <= n / 10)%nat ->
        exists m : BezierCurve.Tangent,
          nth_error (BezierCurve.tangents bc') j = Some m
          /\ nth_error (BezierCurve.curve bc') (10 * j)
             = Some (BezierCurve.point m)
          /\ BezierCurve.vector m
             = Vector2.normalize
                 (BezierCurve.calculateTangent bc (INR (10 * j) / INR n))).
Proof.
  intros Hn n bc'. subst bc'. rewrite update_eq.
  cbn [BezierCurve.curve BezierCurve.tangents]. fold n.
  rewrite marked_seq.
  split; [| split; [| split; [| split]]].
  - rewrite length_map, length_seq. reflexivity.
  - rewrite !length_map, length_seq. reflexivity.
  - cbn [seq map nth_error]. f_equal. apply sample_first.
  - rewrite nth_error_map, nth_error_seq.
    destruct (Nat.ltb_spec n (S n)) as [_ | Hge]; [| lia].
    cbn [option_map Nat.add]. f_equal. apply sample_last, Hn.
  - intros j Hj.
    exists (marker bc (10 * j)).
    split; [| split].
    + rewrite !nth_error_map, nth_error_seq.
      destruct (Nat.ltb_spec j (S (n / 10))) as [_ | Hge]; [| lia].
      reflexivity.
    + rewrite nth_error_map, nth_error_seq.
      assert (B : (10 * (n / 10) <= n)%nat)
        by (apply Nat.Div0.mul_div_le).
      destruct (Nat.ltb_spec (10 * j) (S n)) as [_ | Hge]; [| lia].
      reflexivity.
    + reflexivity.
Qed.

(** Seven segments: eight samples and a single marker, at the start. *)
Lemma update_any_segments_witness :
  List.length
    (BezierCurve.curve
       (BezierCurve.update
          (with_segments 7 (BezierApp.curve BezierApp.new)))) = 8%nat
  /\ List.length
       (BezierCurve.tangents
          (BezierCurve.update
             (with_segments 7 (BezierApp.curve BezierApp.new)))) = 1%nat
  /\ nth_error
       (BezierCurve.curve
          (BezierCurve.update
             (with_segments 7 (BezierApp.curve BezierApp.new)))) 7
     = Some (BezierCurve.pos (BezierApp.curve BezierApp.new) P3).
Proof.
  assert (H : (0 < BezierCurve.segments
                     (with_segments 7 (BezierApp.curve BezierApp.new)))%nat)
    by (repeat constructor).
  destruct (update_any_segments
              (with_segments 7 (BezierApp.curve BezierApp.new)) H)
    as (Hc & Ht & _ & Hl & _).
  split; [exact Hc |]. split; [exact Ht | exact Hl].
Defined.

(* ================================================================= *)
(** ** Further properties of the app *)

Section AppMore.

Import BezierApp.

Ltac open_state s :=
  destruct s as [cv [[a b c d] cu tg sg] ph md dr mp lt f].

Lemma point_updatePhysics (dt : R) (i : PointId) (s : BezierApp.t) :
  point i (updatePhysics dt s)
  = ControlPoint.applyPhysics (stiffness (physics s)) (damping (physics s))
                              dt (point i s).
Proof. open_state s. destruct i; reflexivity. Qed.

Lemma point_loop (timestamp : R) (i : PointId) (s : BezierApp.t) :
  point i (loop timestamp s)
  = ControlPoint.applyPhysics (stiffness (physics s)) (damping (physics s))
                              (stableDt timestamp s) (point i s).
Proof.
  unfold loop. cbv zeta. unfold point at 1. cbn [curve set_curve].
  rewrite update_eq. cbn [BezierCurve.points].
  apply (point_updatePhysics _ i (set_lastTime s timestamp)).
Qed.

Lemma loop_segments (timestamp : R) (s : BezierApp.t) :
  BezierCurve.segments (curve (loop timestamp s))
  = BezierCurve.segments (curve s).
Proof.
  unfold loop. cbv zeta. cbn [curve set_curve]. rewrite update_eq.
  reflexivity.
Qed.

Lemma stableDt_le (timestamp : R) (s : BezierApp.t) :
  stableDt timestamp s <= 1 / 30.
Proof. apply Rmin_r. Qed.

Lemma stableDt_first (timestamp : R) (s : BezierApp.t) :
  lastTime s = 0 -> stableDt timestamp s = 1 / 60.
Proof.
  intros H. unfold stableDt.
  destruct (Req_dec_T (lastTime s) 0) as [_ | N]; [| contradiction].
  apply Rmin_left. lra.
Qed.

Lemma applyPhysics_settled (k c h : R) (cp : ControlPoint.t) :
  settled cp -> ControlPoint.applyPhysics k c h cp = cp.
Proof.
  intros [H | [H | H]].
  - apply applyPhysics_suspended. rewrite H. reflexivity.
  - apply applyPhysics_suspended. rewrite H. apply orb_true_r.
  - apply applyPhysics_at_rest, H.
Qed.

End AppMore.

Section Reachable.

Import BezierApp.

Ltac open_state s :=
  destruct s as [cv [[a b c d] cu tg sg] ph md dr mp lt f].

(** The loop of [mouseDown] stops at the first point that passes the test. *)
Lemma mouseDown_loop_find (ids : list PointId) (pos : Vector2.t)
  (s : BezierApp.t) :
  mouseDown_loop ids pos s
  = match find (hit pos s) ids with
    | Some i => grab i s
    | None => s
    end.
Proof.
  induction ids as [| i rest IH]; [reflexivity |].
  cbn [mouseDown_loop find]. unfold hit at 1.
  destruct (negb (ControlPoint.isFixed (point i s))
            && ControlPoint.contains (point i s) pos);
    [reflexivity | exact IH].
Qed.

Lemma mouseDown_find (rect : DOMRect) (e : MouseEvent) (s : BezierApp.t) :
  mouseDown rect e s
  = match find (hit (pointer rect e) s) Points.ids with
    | Some i => grab i s
    | None => s
    end.
Proof. apply mouseDown_loop_find. Qed.

Lemma sane_new : sane BezierApp.new.
Proof.
  unfold sane. repeat split; try reflexivity.
  - discriminate.
  - discriminate.
  - left. split; reflexivity.
Qed.

Lemma sane_grab (i : PointId) (s : BezierApp.t) :
  sane s -> i = P1 \/ i = P2 -> sane (grab i s).
Proof.
  intros (Hc & Hn & H0 & H3 & H1 & H2 & Hd & Hl) Hi.
  open_state s. unfold sane, grab, p0, p1, p2, p3, point in *.
  cbn in *.
  destruct Hi as [-> | ->]; cbn;
    (split; [exact Hc |]; split; [exact Hn |]; split; [exact H0 |];
     split; [exact H3 |]; split; [exact H1 |]; split; [exact H2 |];
     split; [| exact Hl]);
    intros d' E; injection E as <-; cbn; auto.
Qed.

Lemma sane_mouseDown (rect : DOMRect) (e : MouseEvent) (s : BezierApp.t) :
  sane s -> sane (mouseDown rect e s).
Proof.
  intros Hs. rewrite mouseDown_find.
  destruct (find (hit (pointer rect e) s) Points.ids) as [i |] eqn:F;
    [| exact Hs].
  apply find_some in F as [_ Hh].
  apply sane_grab; [exact Hs |].
  unfold hit in Hh. apply andb_true_iff in Hh as [Hfree _].
  apply negb_true_iff in Hfree.
  destruct Hs as (_ & _ & H0 & H3 & _).
  destruct i; [| left; reflexivity | right; reflexivity |].
  - exfalso. change (point P0 s) with (p0 s) in Hfree.
    rewrite H0 in Hfree. discriminate Hfree.
  - exfalso. change (point P3 s) with (p3 s) in Hfree.
    rewrite H3 in Hfree. discriminate Hfree.
Qed.

Lemma sane_clampTargets (s : BezierApp.t) : sane s -> sane (clampTargets s).
Proof.
  intros (Hc & Hn & H0 & H3 & H1 & H2 & Hd & Hl).
  open_state s. unfold sane, p0, p1, p2, p3, point in *. cbn in *.
  repeat (split; [assumption |]).
  first [exact Hl | split; [| exact Hl]].
  intros d' E. destruct (Hd d' E) as [Hor Hdr]. split; [exact Hor |].
  destruct Hor as [-> | ->]; exact Hdr.
Qed.

Lemma sane_handleMotion (e : DeviceMotionEvent) (s : BezierApp.t) :
  sane s -> sane (handleMotion e s).
Proof.
  intros Hs. unfold handleMotion.
  destruct (mode s); [exact Hs |].
  destruct (rotationRate e) as [rate |]; [| exact Hs].
  cbv zeta. apply sane_clampTargets.
  destruct Hs as (Hc & Hn & H0 & H3 & H1 & H2 & Hd & Hl).
  open_state s. unfold sane, p0, p1, p2, p3, point in *. cbn in *.
  repeat (split; [assumption |]).
  first [exact Hl | split; [| exact Hl]].
  intros d' E. destruct (Hd d' E) as [Hor Hdr]. split; [exact Hor |].
  destruct Hor as [-> | ->]; exact Hdr.
Qed.

Lemma sane_mouseMove (rect : DOMRect) (e : MouseEvent) (s : BezierApp.t) :
  sane s -> sane (mouseMove rect e s).
Proof.
  intros Hs. unfold mouseMove. cbv zeta.
  cbn [dragged set_mousePos mode].
  destruct (dragged s) as [d' |] eqn:Ed.
  - destruct Hs as (Hc & Hn & H0 & H3 & H1 & H2 & Hd & Hl).
    destruct (Hd d' Ed) as [Hor Hdr].
    open_state s. unfold sane, p0, p1, p2, p3, point in *. cbn in *.
    subst dr.
    destruct Hor as [-> | ->]; cbn in *;
      repeat (split; [assumption |]);
      first [exact Hl
            | split; [| exact Hl]; intros d2 E; injection E as <-; cbn; auto].
  - destruct (mode s); [| ].
    + apply sane_clampTargets.
      destruct Hs as (Hc & Hn & H0 & H3 & H1 & H2 & Hd & Hl).
      open_state s. unfold sane, p0, p1, p2, p3, point in *. cbn in *.
      subst dr.
      repeat (split; [assumption |]).
      first [exact Hl | split; [| exact Hl]; intros d2 E; discriminate E].
    + destruct Hs as (Hc & Hn & H0 & H3 & H1 & H2 & Hd & Hl).
      open_state s. unfold sane, p0, p1, p2, p3, point in *. cbn in *.
      subst dr.
      repeat (split; [assumption |]).
      first [exact Hl | split; [| exact Hl]; intros d2 E; discriminate E].
Qed.

Lemma sane_mouseUp (s : BezierApp.t) : sane s -> sane (mouseUp s).
Proof.
  intros Hs. unfold mouseUp.
  destruct (dragged s) as [d' |] eqn:Ed; [| exact Hs].
  destruct Hs as (Hc & Hn & H0 & H3 & H1 & H2 & Hd & Hl).
  destruct (Hd d' Ed) as [Hor _].
  open_state s. unfold sane, p0, p1, p2, p3, point in *. cbn in *.
  destruct Hor as [-> | ->]; cbn in *;
    repeat (split; [assumption |]);
    first [exact Hl | split; [| exact Hl]; intros d2 E; discriminate E].
Qed.

Lemma sane_reset (s : BezierApp.t) : sane s -> sane (reset s).
Proof.
  intros (Hc & Hn & H0 & H3 & H1 & H2 & Hd & Hl).
  open_state s. unfold sane, p0, p1, p2, p3, point in *. cbn in *.
  repeat (split; [assumption |]).
  first [exact Hl | split; [| exact Hl]; intros d2 E; discriminate E].
Qed.

Lemma sane_loop (timestamp : R) (s : BezierApp.t) : sane s -> sane (loop timestamp s).
Proof.
  intros (Hc & Hn & H0 & H3 & H1 & H2 & Hd & Hl).
  pose proof (fun i => point_loop timestamp i s) as P.
  pose proof (fun i => applyPhysics_frame (stiffness (physics s))
                         (damping (physics s)) (stableDt timestamp s)
                         (point i s)) as Fr.
  unfold sane.
  split; [exact Hc |].
  split; [rewrite loop_segments; exact Hn |].
  unfold p0, p1, p2, p3 in *.
  split.
  { rewrite P. rewrite applyPhysics_suspended; [exact H0 |].
    rewrite H0. reflexivity. }
  split.
  { rewrite P. rewrite applyPhysics_suspended; [exact H3 |].
    rewrite H3. reflexivity. }
  split.
  { rewrite P. destruct (Fr P1) as (_ & F1 & _ & R1).
    rewrite F1, R1. exact H1. }
  split.
  { rewrite P. destruct (Fr P2) as (_ & F2 & _ & R2).
    rewrite F2, R2. exact H2. }
  split.
  { intros d' E. destruct (Hd d' E) as [Hor Hdr]. split; [exact Hor |].
    rewrite P. destruct (Fr d') as (_ & _ & D' & _). rewrite D'. exact Hdr. }
  right. unfold loop. cbv zeta. cbn [curve set_curve].
  rewrite update_eq. cbn [BezierCurve.curve BezierCurve.tangents].
  change (BezierCurve.segments
            (curve (updatePhysics
                      (Rmin (if Req_dec_T (lastTime s) 0 then 1 / 60
                             else (timestamp - lastTime s) / 1000)
                            (1 / 30))
                      (set_lastTime s timestamp))))
    with (BezierCurve.segments (curve s)).
  rewrite Hn, marked_100, !length_map, !length_seq. split; reflexivity.
Qed.

Lemma sane_handle (ev : Event) (s : BezierApp.t) :
  sane s -> sane (handle s ev).
Proof.
  intros Hs. destruct ev; cbn [handle].
  - apply sane_mouseDown, Hs.
  - apply sane_mouseMove, Hs.
  - apply sane_mouseUp, Hs.
  - apply sane_mouseUp, Hs.
  - exact Hs.
  - exact Hs.
  - apply sane_reset, Hs.
  - exact Hs.
  - apply sane_handleMotion, Hs.
  - apply sane_loop, Hs.
Qed.

Lemma sane_run (evs : list Event) (s : BezierApp.t) :
  sane s -> sane (run evs s).
Proof.
  revert s. induction evs as [| ev evs IH]; intros s Hs; [exact Hs |].
  cbn [run fold_left]. apply IH, sane_handle, Hs.
Qed.

End Reachable.

Section MouseHandling.

Import BezierApp.

Ltac open_state s :=
  destruct s as [cv [[q0 q1 q2 q3] cu tg sg] ph md dr mp lt f].

(** A settled point is left alone by any number of frames, whatever the
    other points do. *)
Lemma frames_settled_point (ts : list R) (i : PointId) (s : BezierApp.t) :
  settled (point i s) -> point i (run (frames ts) s) = point i s.
Proof.
  revert s. induction ts as [| t ts IH]; intros s H; [reflexivity |].
  cbn [frames map run fold_left handle].
  assert (E : point i (loop t s) = point i s)
    by (rewrite point_loop; apply applyPhysics_settled, H).
  change (point i (run (frames ts) (loop t s)) = point i s).
  rewrite IH; [exact E | rewrite E; exact H].
Qed.

Lemma grab_effect (i : PointId) (s : BezierApp.t) :
  dragged (grab i s) = Some i
  /\ point i (grab i s) = ControlPoint.set_isDragging (point i s) true
  /\ (forall j, j <> i -> point j (grab i s) = point j s).
Proof.
  split; [reflexivity |]. split.
  - unfold grab. rewrite point_set_point_same. reflexivity.
  - intros j Hj. unfold grab. rewrite point_set_point_other by exact Hj.
    reflexivity.
Qed.

Lemma mouseMove_dragging (rect : DOMRect) (e : MouseEvent) (d : PointId)
  (s : BezierApp.t) :
  dragged s = Some d ->
  point d (mouseMove rect e s)
  = ControlPoint.mk (pointer rect e) (Vector2.new 0 0) (pointer rect e)
      (ControlPoint.isFixed (point d s)) (ControlPoint.isDragging (point d s))
      (ControlPoint.radius (point d s))
  /\ (forall i, i <> d -> point i (mouseMove rect e s) = point i s)
  /\ dragged (mouseMove rect e s) = Some d
  /\ mousePos (mouseMove rect e s) = pointer rect e
  /\ mode (mouseMove rect e s) = mode s
  /\ physics (mouseMove rect e s) = physics s.
Proof.
  intros Hd. unfold mouseMove. cbv zeta. cbn [dragged set_mousePos].
  rewrite Hd. open_state s. cbn in Hd. subst dr.
  unfold pointer.
  destruct d; cbn; repeat split; try reflexivity;
    intros i Hi; destruct i; try reflexivity; contradiction.
Qed.

Lemma mouseUp_dragging (d : PointId) (s : BezierApp.t) :
  dragged s = Some d ->
  point d (mouseUp s) = ControlPoint.set_isDragging (point d s) false
  /\ (forall i, i <> d -> point i (mouseUp s) = point i s)
  /\ dragged (mouseUp s) = None.
Proof.
  intros Hd. unfold mouseUp. rewrite Hd.
  split; [| split].
  - apply (point_set_point_same d _ s).
  - intros i Hi. apply (point_set_point_other i d _ s Hi).
  - reflexivity.
Qed.

(** With fixed end points and free interior points the loop of [mouseDown]
    comes down to two tests. *)
Lemma mouseDown_cases (rect : DOMRect) (e : MouseEvent) (s : BezierApp.t) :
  ControlPoint.isFixed (p0 s) = true ->
  ControlPoint.isFixed (p3 s) = true ->
  ControlPoint.isFixed (p1 s) = false ->
  ControlPoint.isFixed (p2 s) = false ->
  mouseDown rect e s
  = (if ControlPoint.contains (p1 s) (pointer rect e) then grab P1 s
     else if ControlPoint.contains (p2 s) (pointer rect e) then grab P2 s
          else s).
Proof.
  intros H0 H3 H1 H2. rewrite mouseDown_find.
  unfold Points.ids. cbn [find]. unfold hit.
  change (point P0 s) with (p0 s). change (point P1 s) with (p1 s).
  change (point P2 s) with (p2 s). change (point P3 s) with (p3 s).
  rewrite H0, H1, H2, H3. cbn [negb andb].
  destruct (ControlPoint.contains (p1 s) (pointer rect e)); [reflexivity |].
  destruct (ControlPoint.contains (p2 s) (pointer rect e)); reflexivity.
Qed.

(** A point contains every position within its radius, its own included. *)
Lemma contains_near (cp : ControlPoint.t) (q : Vector2.t) :
  Vector2.distanceTo (ControlPoint.position cp) q <= ControlPoint.radius cp ->
  ControlPoint.contains cp q = true.
Proof.
  intros H. unfold ControlPoint.contains.
  destruct (Rle_dec _ _) as [_ | N]; [reflexivity | contradiction].
Qed.

(** Handlers that move targets only. *)
Lemma clampTargets_body (i : PointId) (s : BezierApp.t) :
  ControlPoint.position (point i (clampTargets s))
  = ControlPoint.position (point i s)
  /\ ControlPoint.velocity (point i (clampTargets s))
     = ControlPoint.velocity (point i s)
  /\ ControlPoint.isFixed (point i (clampTargets s))
     = ControlPoint.isFixed (point i s)
  /\ ControlPoint.isDragging (point i (clampTargets s))
     = ControlPoint.isDragging (point i s)
  /\ ControlPoint.radius (point i (clampTargets s))
     = ControlPoint.radius (point i s).
Proof. open_state s. destruct i; repeat split. Qed.

Lemma handleMotion_body (e : DeviceMotionEvent) (i : PointId)
  (s : BezierApp.t) :
  ControlPoint.position (point i (handleMotion e s))
  = ControlPoint.position (point i s)
  /\ ControlPoint.velocity (point i (handleMotion e s))
     = ControlPoint.velocity (point i s)
  /\ ControlPoint.isFixed (point i (handleMotion e s))
     = ControlPoint.isFixed (point i s)
  /\ ControlPoint.isDragging (point i (handleMotion e s))
     = ControlPoint.isDragging (point i s)
  /\ ControlPoint.radius (point i (handleMotion e s))
     = ControlPoint.radius (point i s).
Proof.
  unfold handleMotion. destruct (mode s); [repeat split |].
  destruct (rotationRate e) as [rate |]; [| repeat split].
  open_state s. destruct i; repeat split.
Qed.

Lemma handleMotion_fields (e : DeviceMotionEvent) (s : BezierApp.t) :
  dragged (handleMotion e s) = dragged s
  /\ mode (handleMotion e s) = mode s
  /\ canvas (handleMotion e s) = canvas s.
Proof.
  unfold handleMotion. destruct (mode s) eqn:M; [rewrite M; repeat split |].
  destruct (rotationRate e) as [rate |]; [| rewrite M; repeat split].
  repeat split. exact M.
Qed.

Lemma mouseMove_ambient_body (rect : DOMRect) (e : MouseEvent)
  (i : PointId) (s : BezierApp.t) :
  dragged s = None ->
  ControlPoint.position (point i (mouseMove rect e s))
  = ControlPoint.position (point i s)
  /\ ControlPoint.velocity (point i (mouseMove rect e s))
     = ControlPoint.velocity (point i s)
  /\ ControlPoint.isFixed (point i (mouseMove rect e s))
     = ControlPoint.isFixed (point i s)
  /\ ControlPoint.isDragging (point i (mouseMove rect e s))
     = ControlPoint.isDragging (point i s)
  /\ ControlPoint.radius (point i (mouseMove rect e s))
     = ControlPoint.radius (point i s)
  /\ dragged (mouseMove rect e s) = None
  /\ mode (mouseMove rect e s) = mode s
  /\ mousePos (mouseMove rect e s) = pointer rect e.
Proof.
  intros Hd. unfold mouseMove. cbv zeta. cbn [dragged set_mousePos mode].
  rewrite Hd. open_state s. cbn in Hd. subst dr. unfold pointer.
  destruct md; destruct i; repeat split.
Qed.

Lemma reset_points (s : BezierApp.t) :
  let w := width (canvas s) in
  let h := height (canvas s) in
  point P0 (reset s) = point P0 s
  /\ point P3 (reset s) = point P3 s
  /\ point P1 (reset s)
     = ControlPoint.mk (Vector2.new (w * 0.4) (h * 0.3)) (Vector2.new 0 0)
         (Vector2.new (w * 0.4) (h * 0.3))
         (ControlPoint.isFixed (p1 s)) (ControlPoint.isDragging (p1 s))
         (ControlPoint.radius (p1 s))
  /\ point P2 (reset s)
     = ControlPoint.mk (Vector2.new (w * 0.6) (h * 0.7)) (Vector2.new 0 0)
         (Vector2.new (w * 0.6) (h * 0.7))
         (ControlPoint.isFixed (p2 s)) (ControlPoint.isDragging (p2 s))
         (ControlPoint.radius (p2 s))
  /\ dragged (reset s) = None
  /\ mode (reset s) = mode s
  /\ physics (reset s) = physics s
  /\ canvas (reset s) = canvas s.
Proof. open_state s. repeat split. Qed.

End MouseHandling.

(** What every reachable state has in common -- Whatever events the app has
    handled since its constructor: the canvas is 800 x 500 and the curve has
    100 segments; the end points [p0] and [p3] are exactly as constructed
    (position, target, zero velocity, fixed, never flagged as dragged);
    [p1] and [p2] are free; [dragged] is [null], [p1] or [p2], and the point
    it refers to has [isDragging] set; the sample containers are empty or
    hold 101 samples and 11 markers. *)
Theorem reachable_invariants (evs : list BezierApp.Event) :
  let s := BezierApp.run evs BezierApp.new in
  BezierApp.canvas s = BezierApp.mkCanvas 800 500
  /\ BezierCurve.segments (BezierApp.curve s) = 100%nat
  /\ BezierApp.p0 s = ControlPoint.new (800 * 0.2) (500 * 0.5) true
  /\ BezierApp.p3 s = ControlPoint.new (800 * 0.8) (500 * 0.5) true
  /\ ControlPoint.isFixed (BezierApp.p1 s) = false
  /\ ControlPoint.isFixed (BezierApp.p2 s) = false
  /\ (BezierApp.dragged s = None
      \/ BezierApp.dragged s = Some P1
      \/ BezierApp.dragged s = Some P2)
  /\ (forall d : PointId,
        BezierApp.dragged s = Some d ->
        ControlPoint.isDragging (BezierApp.point d s) = true)
  /\ ((BezierCurve.curve (BezierApp.curve s) = []
       /\ BezierCurve.tangents (BezierApp.curve s) = [])
      \/ (List.length (BezierCurve.curve (BezierApp.curve s)) = 101%nat
          /\ List.length (BezierCurve.tangents (BezierApp.curve s)) = 11%nat)).
Proof.
  intros s.
  destruct (sane_run evs BezierApp.new sane_new)
    as (Hc & Hn & H0 & H3 & [H1 _] & [H2 _] & Hd & Hl).
  fold s in Hc, Hn, H0, H3, H1, H2, Hd, Hl.
  split; [exact Hc |]. split; [exact Hn |]. split; [exact H0 |].
  split; [exact H3 |]. split; [exact H1 |]. split; [exact H2 |].
  split; [| split; [| exact Hl]].
  - destruct (BezierApp.dragged s) as [d |] eqn:E; [| left; reflexivity].
    destruct (Hd d eq_refl) as [[-> | ->] _]; auto.
  - intros d E. apply (Hd d E).
Qed.

(** The hit test of [mouseDown] -- In a state whose end points are fixed and
    whose interior points are free, a press grabs [p1] if [p1] contains the
    pointer; otherwise [p2] if [p2] contains it; otherwise nothing happens,
    also when the pointer is on an end point.  Grabbing sets [dragged] and
    the point's [isDragging], and no press moves a point or changes a
    velocity or a target. *)
Theorem mouseDown_hit_test
  (rect : BezierApp.DOMRect) (e : BezierApp.MouseEvent) (s : BezierApp.t) :
  ControlPoint.isFixed (BezierApp.p0 s) = true ->
  ControlPoint.isFixed (BezierApp.p3 s) = true ->
  ControlPoint.isFixed (BezierApp.p1 s) = false ->
  ControlPoint.isFixed (BezierApp.p2 s) = false ->
  let s' := BezierApp.mouseDown rect e s in
  s' = (if ControlPoint.contains (BezierApp.p1 s) (pointer rect e)
        then grab P1 s
        else if ControlPoint.contains (BezierApp.p2 s) (pointer rect e)
             then grab P2 s
             else s)
  /\ (forall i : PointId,
        BezierApp.dragged (grab i s) = Some i
        /\ ControlPoint.isDragging (BezierApp.point i (grab i s)) = true)
  /\ (forall i : PointId,
        ControlPoint.position (BezierApp.point i s')
        = ControlPoint.position (BezierApp.point i s)
        /\ ControlPoint.velocity (BezierApp.point i s')
           = ControlPoint.velocity (BezierApp.point i s)
        /\ ControlPoint.target (BezierApp.point i s')
           = ControlPoint.target (BezierApp.point i s)).
Proof.
  intros H0 H3 H1 H2 s'.
  assert (E : s' = (if ControlPoint.contains (BezierApp.p1 s) (pointer rect e)
                    then grab P1 s
                    else if ControlPoint.contains (BezierApp.p2 s)
                                                  (pointer rect e)
                         then grab P2 s
                         else s))
    by (apply mouseDown_cases; assumption).
  split; [exact E |]. split.
  - intros i. destruct (grab_effect i s) as (Hd & Hp & _).
    split; [exact Hd |]. rewrite Hp. reflexivity.
  - intros i. rewrite E.
    assert (G : forall j,
               ControlPoint.position (BezierApp.point i (grab j s))
               = ControlPoint.position (BezierApp.point i s)
               /\ ControlPoint.velocity (BezierApp.point i (grab j s))
                  = ControlPoint.velocity (BezierApp.point i s)
               /\ ControlPoint.target (BezierApp.point i (grab j s))
                  = ControlPoint.target (BezierApp.point i s)).
    { intros j. destruct (grab_effect j s) as (_ & Hp & Ho).
      destruct (PointId_eq_dec i j) as [-> | N].
      - rewrite Hp. repeat split.
      - rewrite (Ho i N). repeat split. }
    destruct (ControlPoint.contains (BezierApp.p1 s) (pointer rect e));
      [apply G |].
    destruct (ControlPoint.contains (BezierApp.p2 s) (pointer rect e));
      [apply G | repeat split].
Qed.

Lemma mouseDown_hit_test_witness :
  BezierApp.mouseDown (BezierApp.mkRect 0 0) (BezierApp.mkMouse 160 250)
                      BezierApp.new
  = (if ControlPoint.contains (BezierApp.p1 BezierApp.new)
          (pointer (BezierApp.mkRect 0 0) (BezierApp.mkMouse 160 250))
     then grab P1 BezierApp.new
     else if ControlPoint.contains (BezierApp.p2 BezierApp.new)
               (pointer (BezierApp.mkRect 0 0) (BezierApp.mkMouse 160 250))
          then grab P2 BezierApp.new
          else BezierApp.new).
Proof.
  exact (proj1 (mouseDown_hit_test (BezierApp.mkRect 0 0)
                  (BezierApp.mkMouse 160 250) BezierApp.new
                  eq_refl eq_refl eq_refl eq_refl)).
Defined.

(** A dragged point follows the pointer -- While [dragged] refers to a
    point, every mouse move puts that point's position and target at the
    pointer (unclamped) and zeroes its velocity, in either mode; the other
    points and their targets are untouched.  With the point's [isDragging]
    set, as it is in every reachable state, the frames that follow leave the
    point exactly there. *)
Theorem drag_follows_pointer
  (rect : BezierApp.DOMRect) (e : BezierApp.MouseEvent) (d : PointId)
  (s : BezierApp.t) :
  BezierApp.dragged s = Some d ->
  let s' := BezierApp.mouseMove rect e s in
  ControlPoint.position (BezierApp.point d s') = pointer rect e
  /\ ControlPoint.target (BezierApp.point d s') = pointer rect e
  /\ ControlPoint.velocity (BezierApp.point d s') = Vector2.new 0 0
  /\ (forall i : PointId, i <> d ->
        BezierApp.point i s' = BezierApp.point i s)
  /\ BezierApp.dragged s' = Some d
  /\ BezierApp.mousePos s' = pointer rect e
  /\ (ControlPoint.isDragging (BezierApp.point d s) = true ->
      forall ts : list R,
        BezierApp.point d (BezierApp.run (frames ts) s')
        = BezierApp.point d s').
Proof.
  intros Hd s'.
  destruct (mouseMove_dragging rect e d s Hd) as (Hp & Ho & Hdr & Hm & _).
  fold s' in Hp, Ho, Hdr, Hm.
  rewrite Hp. cbn [ControlPoint.position ControlPoint.target
                   ControlPoint.velocity].
  repeat (split; [reflexivity || assumption |]).
  intros Hflag ts. rewrite <- Hp.
  apply frames_settled_point. right. left.
  rewrite Hp. exact Hflag.
Qed.

Lemma drag_follows_pointer_witness :
  ControlPoint.position
    (BezierApp.point P1
       (BezierApp.mouseMove (BezierApp.mkRect 8 8) (BezierApp.mkMouse 900 (-40))
          (grab P1 BezierApp.new)))
  = pointer (BezierApp.mkRect 8 8) (BezierApp.mkMouse 900 (-40)).
Proof.
  exact (proj1 (drag_follows_pointer (BezierApp.mkRect 8 8)
                  (BezierApp.mkMouse 900 (-40)) P1 (grab P1 BezierApp.new)
                  eq_refl)).
Defined.

(** A dropped point stays where it was dropped -- After a mouse move during
    a drag and the release that follows, the point is no longer dragged, sits
    at the pointer position with its target at the same place and zero
    velocity, and no number of frames moves it: it stays until something
    moves its target. *)
Theorem drop_stays
  (rect : BezierApp.DOMRect) (e : BezierApp.MouseEvent) (d : PointId)
  (s : BezierApp.t) :
  BezierApp.dragged s = Some d ->
  let s' := BezierApp.mouseUp (BezierApp.mouseMove rect e s) in
  BezierApp.dragged s' = None
  /\ ControlPoint.isDragging (BezierApp.point d s') = false
  /\ ControlPoint.position (BezierApp.point d s') = pointer rect e
  /\ ControlPoint.target (BezierApp.point d s') = pointer rect e
  /\ ControlPoint.velocity (BezierApp.point d s') = Vector2.new 0 0
  /\ (forall ts : list R,
        BezierApp.point d (BezierApp.run (frames ts) s')
        = BezierApp.point d s').
Proof.
  intros Hd s'.
  destruct (mouseMove_dragging rect e d s Hd) as (Hp & _ & Hdr & _).
  destruct (mouseUp_dragging d _ Hdr) as (Hu & _ & Hn).
  fold s' in Hu, Hn. rewrite Hp in Hu.
  rewrite Hu.
  cbn [ControlPoint.set_isDragging ControlPoint.position ControlPoint.target
       ControlPoint.velocity ControlPoint.isDragging].
  repeat (split; [reflexivity || assumption |]).
  intros ts. rewrite <- Hu.
  apply frames_settled_point. right. right.
  rewrite Hu. split; reflexivity.
Qed.

Lemma drop_stays_witness :
  BezierApp.point P2
    (BezierApp.run (frames [16; 33; 50])
       (BezierApp.mouseUp
          (BezierApp.mouseMove (BezierApp.mkRect 0 0)
             (BezierApp.mkMouse 100 400) (grab P2 BezierApp.new))))
  = BezierApp.point P2
      (BezierApp.mouseUp
         (BezierApp.mouseMove (BezierApp.mkRect 0 0)
            (BezierApp.mkMouse 100 400) (grab P2 BezierApp.new))).
Proof.
  exact (proj2 (proj2 (proj2 (proj2 (proj2
           (drop_stays (BezierApp.mkRect 0 0) (BezierApp.mkMouse 100 400) P2
              (grab P2 BezierApp.new) eq_refl)))))
         [16; 33; 50]).
Defined.

(** The rest shape is stable -- From the state the constructor leaves,
    frames alone move nothing.  And from any reachable state, a reset
    followed by any number of frames shows the four control points at the
    positions they were constructed with, each with its target on its
    position and zero velocity. *)
Theorem rest_shape_is_stable
  (evs : list BezierApp.Event) (ts : list R) (i : PointId) :
  BezierApp.point i (BezierApp.run (frames ts) BezierApp.new)
  = BezierApp.point i BezierApp.new
  /\ let s :=
       BezierApp.run (frames ts)
         (BezierApp.reset (BezierApp.run evs BezierApp.new)) in
     ControlPoint.position (BezierApp.point i s)
     = ControlPoint.position (BezierApp.point i BezierApp.new)
     /\ ControlPoint.target (BezierApp.point i s)
        = ControlPoint.position (BezierApp.point i BezierApp.new)
     /\ ControlPoint.velocity (BezierApp.point i s) = Vector2.new 0 0.
Proof.
  split.
  - apply frames_settled_point. right. right.
    destruct i; split; reflexivity.
  - intros s. subst s.
    set (s0 := BezierApp.run evs BezierApp.new).
    destruct (sane_run evs BezierApp.new sane_new)
      as (Hc & _ & H0 & H3 & _).
    fold s0 in Hc, H0, H3.
    destruct (reset_points s0) as (R0 & R3 & R1 & R2 & _).
    rewrite Hc in R1, R2. cbn [BezierApp.width BezierApp.height] in R1, R2.
    change (BezierApp.point P0 s0) with (BezierApp.p0 s0) in R0.
    change (BezierApp.point P3 s0) with (BezierApp.p3 s0) in R3.
    rewrite H0 in R0. rewrite H3 in R3.
    rewrite frames_settled_point.
    + destruct i; [rewrite R0 | rewrite R1 | rewrite R2 | rewrite R3];
        repeat split.
    + right. right.
      destruct i; [rewrite R0 | rewrite R1 | rewrite R2 | rewrite R3];
        split; reflexivity.
Qed.

Section StuckFlag.

Import BezierApp.

(** One event other than a [mousedown], in a state where [dragged] is
    [null] and point [i] still has [isDragging] set. *)
Lemma handle_flagged (ev : Event) (i : PointId) (s : BezierApp.t) :
  ControlPoint.isDragging (point i s) = true ->
  dragged s = None ->
  (forall rect e, ev <> Emousedown rect e) ->
  ControlPoint.isDragging (point i (handle s ev)) = true
  /\ dragged (handle s ev) = None
  /\ (ev <> EresetClick ->
      ControlPoint.position (point i (handle s ev))
      = ControlPoint.position (point i s)).
Proof.
  intros Hf Hd Hev.
  assert (Hup : mouseUp s = s) by (unfold mouseUp; rewrite Hd; reflexivity).
  destruct ev; cbn [handle].
  - exfalso. apply (Hev rect e). reflexivity.
  - destruct (mouseMove_ambient_body rect e i s Hd)
      as (Hp & _ & _ & Hg & _ & Hn & _).
    rewrite Hg, Hp. auto.
  - rewrite Hup. auto.
  - rewrite Hup. auto.
  - auto.
  - auto.
  - destruct (reset_points s) as (R0 & R3 & R1 & R2 & Hn & _).
    split; [| split; [exact Hn | intros N; contradiction]].
    destruct i; [rewrite R0 | rewrite R1 | rewrite R2 | rewrite R3];
      exact Hf.
  - auto.
  - destruct (handleMotion_body e i s) as (Hp & _ & _ & Hg & _).
    destruct (handleMotion_fields e s) as (Hn & _).
    rewrite Hg, Hp, Hn. auto.
  - rewrite point_loop.
    rewrite applyPhysics_suspended by (rewrite Hf; apply orb_true_r).
    auto.
Qed.

Lemma run_flagged (evs : list Event) (i : PointId) (s : BezierApp.t) :
  ControlPoint.isDragging (point i s) = true ->
  dragged s = None ->
  no_mousedown evs ->
  ControlPoint.isDragging (point i (run evs s)) = true
  /\ dragged (run evs s) = None
  /\ (~ In EresetClick evs ->
      ControlPoint.position (point i (run evs s))
      = ControlPoint.position (point i s)).
Proof.
  revert s. induction evs as [| ev evs IH]; intros s Hf Hd Hno.
  - cbn. auto.
  - cbn [run fold_left].
    assert (Hev : forall rect e, ev <> Emousedown rect e).
    { intros rect e E. apply (Hno rect e). left. exact E. }
    assert (Hno' : no_mousedown evs).
    { intros rect e HI. apply (Hno rect e). right. exact HI. }
    destruct (handle_flagged ev i s Hf Hd Hev) as (Hf1 & Hd1 & Hp1).
    destruct (IH (handle s ev) Hf1 Hd1 Hno') as (Hf2 & Hd2 & Hp2).
    split; [exact Hf2 |]. split; [exact Hd2 |].
    intros Hnr.
    change (fold_left handle evs (handle s ev)) with (run evs (handle s ev)).
    rewrite Hp2 by (intros HI; apply Hnr; right; exact HI).
    apply Hp1. intros E. apply Hnr. left. exact E.
Qed.

(** A press on [p1] of a fresh app, then a reset. *)
Lemma press_then_reset :
  let s :=
    run [Emousedown (mkRect 0 0) (mkMouse 320 150); EresetClick]
        BezierApp.new in
  ControlPoint.isDragging (point P1 s) = true /\ dragged s = None.
Proof.
  cbn [run fold_left handle].
  assert (C : ControlPoint.contains (p1 BezierApp.new)
                (pointer (mkRect 0 0) (mkMouse 320 150)) = true).
  { apply contains_near. unfold Vector2.distanceTo.
    replace (Vector2.subtract (ControlPoint.position (p1 BezierApp.new))
                              (pointer (mkRect 0 0) (mkMouse 320 150)))
      with (Vector2.new 0 0)
      by (apply vector2_ext; simpl; lra).
    rewrite length_zero. simpl. lra. }
  rewrite (mouseDown_cases (mkRect 0 0) (mkMouse 320 150) BezierApp.new
             eq_refl eq_refl eq_refl eq_refl), C.
  split; reflexivity.
Qed.

End StuckFlag.

(** [reset] forgets the drag but not the flag -- [reset] sets [dragged] to
    [null] without clearing the [isDragging] flag of the point that was held.
    In a state where a point has [isDragging] set while [dragged] is [null],
    no sequence of events without a [mousedown] clears the flag or sets
    [dragged]: neither a release nor a frame does.  Physics skips the point,
    so unless a reset puts it back it keeps its position, whatever happens
    to its target. *)
Theorem isDragging_survives_reset
  (evs : list BezierApp.Event) (i : PointId) (s : BezierApp.t) :
  ControlPoint.isDragging (BezierApp.point i s) = true ->
  BezierApp.dragged s = None ->
  no_mousedown evs ->
  let s' := BezierApp.run evs s in
  ControlPoint.isDragging (BezierApp.point i s') = true
  /\ BezierApp.dragged s' = None
  /\ (~ In BezierApp.EresetClick evs ->
      ControlPoint.position (BezierApp.point i s')
      = ControlPoint.position (BezierApp.point i s)).
Proof.
  intros Hf Hd Hno s'. apply run_flagged; assumption.
Qed.

(** The state is reachable: press on [p1], reset.  After a release, a mouse
    move to the far corner and two frames, [p1] is still flagged and has not
    left its reset position. *)
Lemma isDragging_survives_reset_witness :
  ControlPoint.isDragging
    (BezierApp.point P1
       (BezierApp.run
          [BezierApp.Emouseup;
           BezierApp.Emousemove (BezierApp.mkRect 0 0) (BezierApp.mkMouse 800 500);
           BezierApp.Eframe 16; BezierApp.Eframe 33]
          (BezierApp.run
             [BezierApp.Emousedown (BezierApp.mkRect 0 0)
                                   (BezierApp.mkMouse 320 150);
              BezierApp.EresetClick]
             BezierApp.new))) = true.
Proof.
  refine (proj1 (isDragging_survives_reset
                   [BezierApp.Emouseup;
                    BezierApp.Emousemove (BezierApp.mkRect 0 0)
                                         (BezierApp.mkMouse 800 500);
                    BezierApp.Eframe 16; BezierApp.Eframe 33]
                   P1 _ (proj1 press_then_reset) (proj2 press_then_reset) _)).
  intros rect e H.
  repeat (destruct H as [H | H]; [discriminate H |]).
  exact H.
Defined.

Section FrameFacts.

Import BezierApp.

(** The containers after a frame, for 100 segments: the samples and the
    markers of the curve as the physics step left it. *)
Lemma loop_curve (timestamp : R) (s : BezierApp.t) :
  BezierCurve.segments (curve s) = 100%nat ->
  BezierCurve.curve (curve (loop timestamp s))
  = map (fun i => BezierCurve.calculatePoint (curve (loop timestamp s))
                    (INR i / 100))
        (seq 0 101)
  /\ List.length (BezierCurve.tangents (curve (loop timestamp s))) = 11%nat.
Proof.
  intros Hn. unfold loop. cbv zeta. cbn [curve set_curve].
  set (X := curve (updatePhysics _ (set_lastTime s timestamp))).
  assert (HX : BezierCurve.segments X = 100%nat) by exact Hn.
  rewrite (update_eq X).
  cbn [BezierCurve.curve BezierCurve.tangents]. rewrite HX. split.
  - apply map_ext. intros i.
    unfold sample. rewrite HX, INR_100. reflexivity.
  - rewrite marked_100, !length_map, length_seq. reflexivity.
Qed.

End FrameFacts.

(** One animation frame -- [loop] advances every control point by one
    [applyPhysics] call with the app's current coefficients and a time step
    that is [1/60] on the first frame, otherwise the time since the last
    frame in seconds, and never more than [1/30].  It then records the
    timestamp and, with 100 segments, leaves 101 samples and 11 markers of
    the curve through the positions after that step: sample [i] is
    [calculatePoint(i / 100)] of the new positions, the first sample is the
    new position of [p0] and the last that of [p3]. *)
Theorem frame_steps_then_samples (timestamp : R) (s : BezierApp.t) :
  BezierCurve.segments (BezierApp.curve s) = 100%nat ->
  let s' := BezierApp.loop timestamp s in
  (exists dt : R,
     dt <= 1 / 30
     /\ (BezierApp.lastTime s = 0 -> dt = 1 / 60)
     /\ (BezierApp.lastTime s <> 0 ->
         dt = Rmin ((timestamp - BezierApp.lastTime s) / 1000) (1 / 30))
     /\ forall i : PointId,
          BezierApp.point i s'
          = ControlPoint.applyPhysics
              (BezierApp.stiffness (BezierApp.physics s))
              (BezierApp.damping (BezierApp.physics s))
              dt (BezierApp.point i s))
  /\ BezierApp.lastTime s' = timestamp
  /\ List.length (BezierCurve.curve (BezierApp.curve s')) = 101%nat
  /\ List.length (BezierCurve.tangents (BezierApp.curve s')) = 11%nat
  /\ (forall i : nat, (i <= 100)%nat ->
        nth_error (BezierCurve.curve (BezierApp.curve s')) i
        = Some (BezierCurve.calculatePoint (BezierApp.curve s')
                                           (INR i / 100)))
  /\ nth_error (BezierCurve.curve (BezierApp.curve s')) 0
     = Some (ControlPoint.position (BezierApp.p0 s'))
  /\ nth_error (BezierCurve.curve (BezierApp.curve s')) 100
     = Some (ControlPoint.position (BezierApp.p3 s')).
Proof.
  intros Hn s'.
  destruct (loop_curve timestamp s Hn) as [Hc Ht]. fold s' in Hc, Ht.
  assert (Hnth : forall i : nat, (i <= 100)%nat ->
            nth_error (BezierCurve.curve (BezierApp.curve s')) i
            = Some (BezierCurve.calculatePoint (BezierApp.curve s')
                                               (INR i / 100))).
  { intros i Hi. rewrite Hc at 1. rewrite nth_error_map, nth_error_seq.
    destruct (Nat.ltb_spec i 101) as [_ | Hge]; [| lia]. reflexivity. }
  split.
  { exists (stableDt timestamp s).
    split; [apply stableDt_le |].
    split; [apply stableDt_first |].
    split; [| intros i; apply point_loop].
    intros N. unfold stableDt.
    destruct (Req_dec_T (BezierApp.lastTime s) 0) as [E | _];
      [contradiction | reflexivity]. }
  split; [reflexivity |].
  split; [rewrite Hc, length_map, length_seq; reflexivity |].
  split; [exact Ht |].
  split; [exact Hnth |].
  split.
  - rewrite Hnth by lia. f_equal.
    replace (INR 0 / 100) with 0 by (simpl; lra).
    apply vector2_ext; rewrite ?calculatePoint_x, ?calculatePoint_y;
      unfold BezierApp.p0, BezierApp.point, BezierCurve.pos; ring.
  - rewrite Hnth by lia. f_equal.
    replace (INR 100 / 100) with 1 by (rewrite INR_100; lra).
    apply vector2_ext; rewrite ?calculatePoint_x, ?calculatePoint_y;
      unfold BezierApp.p3, BezierApp.point, BezierCurve.pos; ring.
Qed.

Lemma frame_steps_then_samples_witness :
  BezierApp.lastTime (BezierApp.loop 16 BezierApp.new) = 16
  /\ List.length
       (BezierCurve.curve (BezierApp.curve (BezierApp.loop 16 BezierApp.new)))
     = 101%nat.
Proof.
  destruct (frame_steps_then_samples 16 BezierApp.new eq_refl)
    as (_ & Hl & Hc & _).
  split; [exact Hl | exact Hc].
Defined.

(** The polyline is anchored -- After every frame, whatever happened
    before, the sampled polyline starts at [(160, 250)] and ends at
    [(640, 250)], the positions of the two fixed end points. *)
Theorem polyline_anchored (evs : list BezierApp.Event) (timestamp : R) :
  let s := BezierApp.loop timestamp (BezierApp.run evs BezierApp.new) in
  nth_error (BezierCurve.curve (BezierApp.curve s)) 0
  = Some (Vector2.new 160 250)
  /\ nth_error (BezierCurve.curve (BezierApp.curve s)) 100
     = Some (Vector2.new 640 250).
Proof.
  intros s.
  set (s0 := BezierApp.run evs BezierApp.new) in *.
  pose proof (sane_run evs BezierApp.new sane_new) as Hs0. fold s0 in Hs0.
  pose proof (sane_loop timestamp s0 Hs0) as Hs. fold s in Hs.
  destruct Hs0 as (_ & Hn & _).
  destruct Hs as (_ & _ & H0 & H3 & _).
  destruct (loop_curve timestamp s0 Hn) as [Hc _]. fold s in Hc.
  rewrite Hc, !nth_error_map, !nth_error_seq. cbn [Nat.ltb Nat.leb option_map Nat.add].
  split; f_equal.
  - replace (INR 0 / 100) with 0 by (simpl; lra).
    apply vector2_ext; rewrite ?calculatePoint_x, ?calculatePoint_y;
      change (BezierCurve.pos (BezierApp.curve s) P0)
        with (ControlPoint.position (BezierApp.p0 s));
      rewrite H0; simpl; lra.
  - replace (INR 100 / 100) with 1 by (rewrite INR_100; lra).
    apply vector2_ext; rewrite ?calculatePoint_x, ?calculatePoint_y;
      change (BezierCurve.pos (BezierApp.curve s) P3)
        with (ControlPoint.position (BezierApp.p3 s));
      rewrite H3; simpl; lra.
Qed.

Section Steering.

Import BezierApp.

Ltac open_state s :=
  destruct s as [cv [[q0 q1 q2 q3] cu tg sg] ph md dr mp lt f].

Lemma clamp_idempotent (lo hi v : R) :
  clamp lo hi (clamp lo hi v) = clamp lo hi v.
Proof.
  unfold clamp, Rmax, Rmin.
  repeat (destruct (Rle_dec _ _)); lra.
Qed.

Lemma clamp_inside (lo hi v : R) : lo <= v <= hi -> clamp lo hi v = v.
Proof.
  intros [H1 H2]. unfold clamp.
  rewrite Rmin_left by exact H2. apply Rmax_right, H1.
Qed.

(** The targets [clampTargets] leaves, as vectors. *)
Lemma clampTargets_target (s : BezierApp.t) :
  let w := width (canvas s) in
  let h := height (canvas s) in
  ControlPoint.target (p1 (clampTargets s))
  = Vector2.new (clamp 50 (w - 50) (target_x P1 s))
                (clamp 50 (h - 50) (target_y P1 s))
  /\ ControlPoint.target (p2 (clampTargets s))
     = Vector2.new (clamp 50 (w - 50) (target_x P2 s))
                   (clamp 50 (h - 50) (target_y P2 s))
  /\ ControlPoint.target (p0 (clampTargets s)) = ControlPoint.target (p0 s)
  /\ ControlPoint.target (p3 (clampTargets s)) = ControlPoint.target (p3 s).
Proof. open_state s. repeat split. Qed.

Lemma clampTargets_fields (s : BezierApp.t) :
  canvas (clampTargets s) = canvas s
  /\ dragged (clampTargets s) = dragged s
  /\ mode (clampTargets s) = mode s
  /\ physics (clampTargets s) = physics s
  /\ mousePos (clampTargets s) = mousePos s
  /\ lastTime (clampTargets s) = lastTime s
  /\ fps (clampTargets s) = fps s
  /\ BezierCurve.curve (curve (clampTargets s)) = BezierCurve.curve (curve s)
  /\ BezierCurve.tangents (curve (clampTargets s))
     = BezierCurve.tangents (curve s)
  /\ BezierCurve.segments (curve (clampTargets s))
     = BezierCurve.segments (curve s).
Proof. repeat split. Qed.

(** Two states with the same fields and the same four points are equal. *)
Lemma state_ext (s s' : BezierApp.t) :
  (forall i, point i s' = point i s) ->
  canvas s' = canvas s -> dragged s' = dragged s -> mode s' = mode s ->
  physics s' = physics s -> mousePos s' = mousePos s ->
  lastTime s' = lastTime s -> fps s' = fps s ->
  BezierCurve.curve (curve s') = BezierCurve.curve (curve s) ->
  BezierCurve.tangents (curve s') = BezierCurve.tangents (curve s) ->
  BezierCurve.segments (curve s') = BezierCurve.segments (curve s) ->
  s' = s.
Proof.
  intros Hp.
  pose proof (Hp P0) as H0. pose proof (Hp P1) as H1.
  pose proof (Hp P2) as H2. pose proof (Hp P3) as H3.
  destruct s as [cv [[a0 a1 a2 a3] cu tg sg] ph md dr mp lt f].
  destruct s' as [cv' [[b0 b1 b2 b3] cu' tg' sg'] ph' md' dr' mp' lt' f'].
  cbn in *. intros. subst. reflexivity.
Qed.

Lemma point_ext (cp cp' : ControlPoint.t) :
  ControlPoint.position cp' = ControlPoint.position cp ->
  ControlPoint.velocity cp' = ControlPoint.velocity cp ->
  ControlPoint.target cp' = ControlPoint.target cp ->
  ControlPoint.isFixed cp' = ControlPoint.isFixed cp ->
  ControlPoint.isDragging cp' = ControlPoint.isDragging cp ->
  ControlPoint.radius cp' = ControlPoint.radius cp ->
  cp' = cp.
Proof. destruct cp, cp'. cbn. intros. subst. reflexivity. Qed.

(** Two states that differ in the targets of [p1] and [p2] at most are
    equal when those targets are. *)
Lemma same_but_targets (s s' : BezierApp.t) :
  (forall i,
     ControlPoint.position (point i s') = ControlPoint.position (point i s)
     /\ ControlPoint.velocity (point i s') = ControlPoint.velocity (point i s)
     /\ ControlPoint.isFixed (point i s') = ControlPoint.isFixed (point i s)
     /\ ControlPoint.isDragging (point i s')
        = ControlPoint.isDragging (point i s)
     /\ ControlPoint.radius (point i s') = ControlPoint.radius (point i s)) ->
  (forall i, ControlPoint.target (point i s') = ControlPoint.target (point i s)) ->
  canvas s' = canvas s -> dragged s' = dragged s -> mode s' = mode s ->
  physics s' = physics s -> mousePos s' = mousePos s ->
  lastTime s' = lastTime s -> fps s' = fps s ->
  BezierCurve.curve (curve s') = BezierCurve.curve (curve s) ->
  BezierCurve.tangents (curve s') = BezierCurve.tangents (curve s) ->
  BezierCurve.segments (curve s') = BezierCurve.segments (curve s) ->
  s' = s.
Proof.
  intros Hb Ht. apply state_ext.
  intros i. destruct (Hb i) as (A & B & C & D & E).
  apply point_ext; auto.
Qed.

Lemma clampTargets_idem (s : BezierApp.t) :
  clampTargets (clampTargets s) = clampTargets s.
Proof.
  destruct (clampTargets_fields (clampTargets s))
    as (F1 & F2 & F3 & F4 & F5 & F6 & F7 & F8 & F9 & F10).
  apply same_but_targets; try assumption.
  - intros i. apply clampTargets_body.
  - intros i.
    destruct (clampTargets_target (clampTargets s)) as (T1 & T2 & T0 & T3).
    destruct (clampTargets_target s) as (U1 & U2 & _).
    cbv zeta in *.
    destruct i.
    + exact T0.
    + change (point P1 (clampTargets (clampTargets s)))
        with (p1 (clampTargets (clampTargets s))).
      change (point P1 (clampTargets s)) with (p1 (clampTargets s)).
      rewrite T1. unfold target_x, target_y.
      change (point P1 (clampTargets s)) with (p1 (clampTargets s)).
      rewrite U1. cbn [Vector2.x Vector2.y].
      change (canvas (clampTargets s)) with (canvas s).
      rewrite !clamp_idempotent. reflexivity.
    + change (point P2 (clampTargets (clampTargets s)))
        with (p2 (clampTargets (clampTargets s))).
      change (point P2 (clampTargets s)) with (p2 (clampTargets s)).
      rewrite T2. unfold target_x, target_y.
      change (point P2 (clampTargets s)) with (p2 (clampTargets s)).
      rewrite U2. cbn [Vector2.x Vector2.y].
      change (canvas (clampTargets s)) with (canvas s).
      rewrite !clamp_idempotent. reflexivity.
    + exact T3.
Qed.

Lemma clampTargets_noop (s : BezierApp.t) :
  canvas s = mkCanvas 800 500 -> targets_clamped s -> clampTargets s = s.
Proof.
  intros Hc (X1 & Y1 & X2 & Y2).
  destruct (clampTargets_fields s)
    as (F1 & F2 & F3 & F4 & F5 & F6 & F7 & F8 & F9 & F10).
  apply same_but_targets; try assumption.
  - intros i. apply clampTargets_body.
  - intros i.
    destruct (clampTargets_target s) as (U1 & U2 & U0 & U3).
    cbv zeta in *. rewrite Hc in U1, U2.
    cbn [width height] in U1, U2.
    replace (800 - 50) with 750 in * by lra.
    replace (500 - 50) with 450 in * by lra.
    rewrite !clamp_inside in U1, U2 by assumption.
    destruct i; [exact U0 | | | exact U3].
    + change (point P1 (clampTargets s)) with (p1 (clampTargets s)).
      rewrite U1. apply vector2_eta.
    + change (point P2 (clampTargets s)) with (p2 (clampTargets s)).
      rewrite U2. apply vector2_eta.
Qed.

End Steering.

(** [clampTargets] projects onto the box -- It changes nothing but the
    targets of [p1] and [p2]; clamping a second time changes nothing more;
    and on the 800 x 500 canvas a state whose targets are already inside
    [[50, 750] x [50, 450]] is returned as it is. *)
Theorem clampTargets_projection (s : BezierApp.t) :
  BezierApp.clampTargets (BezierApp.clampTargets s) = BezierApp.clampTargets s
  /\ (forall i : PointId,
        ControlPoint.position (BezierApp.point i (BezierApp.clampTargets s))
        = ControlPoint.position (BezierApp.point i s)
        /\ ControlPoint.velocity (BezierApp.point i (BezierApp.clampTargets s))
           = ControlPoint.velocity (BezierApp.point i s))
  /\ ControlPoint.target (BezierApp.p0 (BezierApp.clampTargets s))
     = ControlPoint.target (BezierApp.p0 s)
  /\ ControlPoint.target (BezierApp.p3 (BezierApp.clampTargets s))
     = ControlPoint.target (BezierApp.p3 s)
  /\ (BezierApp.canvas s = BezierApp.mkCanvas 800 500 ->
      targets_clamped s -> BezierApp.clampTargets s = s).
Proof.
  split; [apply clampTargets_idem |].
  split.
  { intros i. destruct (clampTargets_body i s) as (A & B & _).
    split; assumption. }
  destruct (clampTargets_target s) as (_ & _ & T0 & T3).
  split; [exact T0 |]. split; [exact T3 |].
  apply clampTargets_noop.
Qed.

Section Steering2.

Import BezierApp.

Ltac open_state s :=
  destruct s as [cv [[q0 q1 q2 q3] cu tg sg] ph md dr mp lt f].

(** The targets after a mouse move without a drag in mouse mode, before
    any arithmetic: [clampTargets] applied to the two offsets. *)
Lemma mouseMove_ambient_targets (rect : DOMRect) (e : MouseEvent)
  (s : BezierApp.t) :
  dragged s = None -> mode s = mouse ->
  let w := width (canvas s) in
  let h := height (canvas s) in
  let ox := (Vector2.x (pointer rect e) - w / 2) * 0.005 in
  let oy := (Vector2.y (pointer rect e) - h / 2) * 0.005 in
  ControlPoint.target (p1 (mouseMove rect e s))
  = Vector2.new (clamp 50 (w - 50) (w * 0.4 + ox * 200))
                (clamp 50 (h - 50) (h * 0.3 + oy * 200))
  /\ ControlPoint.target (p2 (mouseMove rect e s))
     = Vector2.new (clamp 50 (w - 50) (w * 0.6 - ox * 150))
                   (clamp 50 (h - 50) (h * 0.7 - oy * 150)).
Proof.
  intros Hd Hm. unfold mouseMove. cbv zeta.
  cbn [dragged set_mousePos mode]. rewrite Hd, Hm.
  open_state s. split; reflexivity.
Qed.

Lemma handleMotion_targets (rate : RotationRate) (s : BezierApp.t) :
  mode s = motion ->
  let w := width (canvas s) in
  let h := height (canvas s) in
  let g := or0 (gamma rate) in
  let b := or0 (beta rate) in
  ControlPoint.target (p1 (handleMotion (mkMotion (Some rate)) s))
  = Vector2.new (clamp 50 (w - 50) (target_x P1 s + g * 8))
                (clamp 50 (h - 50) (target_y P1 s + b * 8))
  /\ ControlPoint.target (p2 (handleMotion (mkMotion (Some rate)) s))
     = Vector2.new (clamp 50 (w - 50) (target_x P2 s - g * 8 * 0.7))
                   (clamp 50 (h - 50) (target_y P2 s - b * 8 * 0.7)).
Proof.
  intros Hm. unfold handleMotion. rewrite Hm. cbn [rotationRate]. cbv zeta.
  open_state s. split; reflexivity.
Qed.

Lemma switchMode_twice (s : BezierApp.t) : switchMode (switchMode s) = s.
Proof. open_state s. destruct md; reflexivity. Qed.

Lemma clamp_monotone (lo hi v v' : R) :
  v <= v' -> clamp lo hi v <= clamp lo hi v'.
Proof.
  intros H. unfold clamp, Rmax, Rmin.
  repeat (destruct (Rle_dec _ _)); lra.
Qed.

Lemma clamp_bounds (lo hi v : R) : lo <= hi -> lo <= clamp lo hi v <= hi.
Proof. apply clamp_range. Qed.

(** The same targets on the 800 x 500 canvas, with the arithmetic done. *)
Lemma mouseMove_ambient_800_500 (rect : DOMRect) (e : MouseEvent)
  (s : BezierApp.t) :
  canvas s = mkCanvas 800 500 -> dragged s = None -> mode s = mouse ->
  ControlPoint.target (p1 (mouseMove rect e s))
  = Vector2.new (clamp 50 750 (Vector2.x (pointer rect e) - 80))
                (clamp 50 450 (Vector2.y (pointer rect e) - 100))
  /\ ControlPoint.target (p2 (mouseMove rect e s))
     = Vector2.new (clamp 50 750 (780 - 0.75 * Vector2.x (pointer rect e)))
                   (clamp 50 450 (537.5 - 0.75 * Vector2.y (pointer rect e))).
Proof.
  intros Hc Hd Hm.
  destruct (mouseMove_ambient_targets rect e s Hd Hm) as [T1 T2].
  cbv zeta in T1, T2. rewrite Hc in T1, T2.
  cbn [width height] in T1, T2.
  split.
  - rewrite T1. f_equal; f_equal; lra.
  - rewrite T2. f_equal; f_equal; lra.
Qed.

End Steering2.

(** Pointer steering -- On the 800 x 500 canvas, a mouse move without a
    drag in mouse mode leaves the targets of [p1] and [p2] inside
    [[50, 750] x [50, 450]].  For the pointer at [(x, y)] the target of [p1]
    is, to within a thousandth of a unit, [(x - 80, y - 100)] clamped to
    that box, and the target of [p2] is [(780 - 0.75 x, 537.5 - 0.75 y)]
    clamped to it.  With the pointer at the centre [(400, 250)] the targets
    are exactly [(320, 150)] and [(480, 350)].  Moving the pointer to the
    right never moves the target of [p1] to the left nor the target of [p2]
    to the right, and likewise downwards.  No position, velocity or flag
    changes, and [mousePos] is the pointer position. *)
Theorem pointer_steering
  (rect : BezierApp.DOMRect) (e e' : BezierApp.MouseEvent)
  (s : BezierApp.t) :
  BezierApp.canvas s = BezierApp.mkCanvas 800 500 ->
  BezierApp.dragged s = None ->
  BezierApp.mode s = BezierApp.mouse ->
  let s1 := BezierApp.mouseMove rect e s in
  let s2 := BezierApp.mouseMove rect e' s in
  let px := Vector2.x (pointer rect e) in
  let py := Vector2.y (pointer rect e) in
  targets_clamped s1
  /\ (Rabs (BezierApp.target_x P1 s1 - clamp 50 750 (px - 80)) <= 1 / 1000
      /\ Rabs (BezierApp.target_y P1 s1 - clamp 50 450 (py - 100))
         <= 1 / 1000
      /\ Rabs (BezierApp.target_x P2 s1 - clamp 50 750 (780 - 0.75 * px))
         <= 1 / 1000
      /\ Rabs (BezierApp.target_y P2 s1 - clamp 50 450 (537.5 - 0.75 * py))
         <= 1 / 1000)
  /\ (pointer rect e = Vector2.new 400 250 ->
      ControlPoint.target (BezierApp.p1 s1) = Vector2.new 320 150
      /\ ControlPoint.target (BezierApp.p2 s1) = Vector2.new 480 350)
  /\ (px <= Vector2.x (pointer rect e') ->
      BezierApp.target_x P1 s1 <= BezierApp.target_x P1 s2
      /\ BezierApp.target_x P2 s2 <= BezierApp.target_x P2 s1)
  /\ (py <= Vector2.y (pointer rect e') ->
      BezierApp.target_y P1 s1 <= BezierApp.target_y P1 s2
      /\ BezierApp.target_y P2 s2 <= BezierApp.target_y P2 s1)
  /\ (forall i : PointId,
        ControlPoint.position (BezierApp.point i s1)
        = ControlPoint.position (BezierApp.point i s)
        /\ ControlPoint.velocity (BezierApp.point i s1)
           = ControlPoint.velocity (BezierApp.point i s)
        /\ ControlPoint.isDragging (BezierApp.point i s1)
           = ControlPoint.isDragging (BezierApp.point i s))
  /\ BezierApp.mousePos s1 = pointer rect e.
Proof.
  intros Hc Hd Hm s1 s2 px py.
  destruct (mouseMove_ambient_800_500 rect e s Hc Hd Hm) as [T1 T2].
  destruct (mouseMove_ambient_800_500 rect e' s Hc Hd Hm) as [T1' T2'].
  fold s1 in T1, T2. fold s2 in T1', T2'. fold px in T1, T2. fold py in T1, T2.
  unfold targets_clamped, BezierApp.target_x, BezierApp.target_y.
  cbn [BezierApp.point]. fold (BezierApp.p1 s1) (BezierApp.p2 s1).
  fold (BezierApp.p1 s2) (BezierApp.p2 s2).
  rewrite T1, T2, T1', T2'. cbn [Vector2.x Vector2.y].
  assert (Z : forall a : R, Rabs (a - a) <= 1 / 1000).
  { intros a. replace (a - a) with 0 by ring. rewrite Rabs_R0. lra. }
  split.
  { repeat split; apply clamp_bounds; lra. }
  split.
  { repeat split; apply Z. }
  split.
  { intros Hp.
    assert (Hx : px = 400) by (subst px; rewrite Hp; reflexivity).
    assert (Hy : py = 250) by (subst py; rewrite Hp; reflexivity).
    rewrite Hx, Hy.
    split; f_equal; (rewrite clamp_inside; lra). }
  split.
  { intros H. split; apply clamp_monotone; lra. }
  split.
  { intros H. split; apply clamp_monotone; lra. }
  split.
  - intros i.
    destruct (mouseMove_ambient_body rect e i s Hd) as (A & B & _ & D & _).
    repeat split; assumption.
  - apply (mouseMove_ambient_body rect e P0 s Hd).
Qed.

(** The pointer in the middle of the canvas: the targets are the positions
    the interior points were constructed with. *)
Lemma pointer_steering_witness :
  ControlPoint.target
    (BezierApp.p1
       (BezierApp.mouseMove (BezierApp.mkRect 0 0) (BezierApp.mkMouse 400 250)
                            BezierApp.new))
  = Vector2.new 320 150
  /\ ControlPoint.target
       (BezierApp.p2
          (BezierApp.mouseMove (BezierApp.mkRect 0 0)
                               (BezierApp.mkMouse 400 250) BezierApp.new))
     = Vector2.new 480 350.
Proof.
  destruct (pointer_steering (BezierApp.mkRect 0 0)
              (BezierApp.mkMouse 400 250) (BezierApp.mkMouse 400 250)
              BezierApp.new eq_refl eq_refl eq_refl)
    as (_ & _ & Hc & _).
  apply Hc. unfold pointer. cbn. f_equal; lra.
Defined.

(** Rotation steering -- On the 800 x 500 canvas in motion mode, a device
    motion event with a rotation rate moves the target of [p1] by
    [8 * (gamma, beta)] and the target of [p2] by [-5.6 * (gamma, beta)],
    a missing [beta] or [gamma] counting as 0, and clamps both to
    [[50, 750] x [50, 450]].  No position, velocity or flag changes, and
    neither do [dragged] or the mode. *)
Theorem rotation_steering
  (rate : BezierApp.RotationRate) (s : BezierApp.t) :
  BezierApp.canvas s = BezierApp.mkCanvas 800 500 ->
  BezierApp.mode s = BezierApp.motion ->
  let s' := BezierApp.handleMotion (BezierApp.mkMotion (Some rate)) s in
  let g := BezierApp.or0 (BezierApp.gamma rate) in
  let b := BezierApp.or0 (BezierApp.beta rate) in
  ControlPoint.target (BezierApp.p1 s')
  = Vector2.new (clamp 50 750 (BezierApp.target_x P1 s + 8 * g))
                (clamp 50 450 (BezierApp.target_y P1 s + 8 * b))
  /\ ControlPoint.target (BezierApp.p2 s')
     = Vector2.new (clamp 50 750 (BezierApp.target_x P2 s - 5.6 * g))
                   (clamp 50 450 (BezierApp.target_y P2 s - 5.6 * b))
  /\ (forall i : PointId,
        ControlPoint.position (BezierApp.point i s')
        = ControlPoint.position (BezierApp.point i s)
        /\ ControlPoint.velocity (BezierApp.point i s')
           = ControlPoint.velocity (BezierApp.point i s)
        /\ ControlPoint.isDragging (BezierApp.point i s')
           = ControlPoint.isDragging (BezierApp.point i s))
  /\ BezierApp.dragged s' = BezierApp.dragged s
  /\ BezierApp.mode s' = BezierApp.motion.
Proof.
  intros Hc Hm s' g b.
  destruct (handleMotion_targets rate s Hm) as [T1 T2].
  cbv zeta in T1, T2. rewrite Hc in T1, T2.
  cbn [BezierApp.width BezierApp.height] in T1, T2.
  fold s' in T1, T2. fold g in T1, T2. fold b in T1, T2.
  split; [| split; [| split; [| split]]].
  - rewrite T1. f_equal; f_equal; lra.
  - rewrite T2. f_equal; f_equal; lra.
  - intros i.
    destruct (handleMotion_body (BezierApp.mkMotion (Some rate)) i s)
      as (A & B & _ & D & _).
    repeat split; assumption.
  - apply handleMotion_fields.
  - destruct (handleMotion_fields (BezierApp.mkMotion (Some rate)) s)
      as (_ & M & _).
    fold s' in M. rewrite M. exact Hm.
Qed.

(** A fresh app switched to motion mode; [beta] is missing from the event. *)
Lemma rotation_steering_witness :
  ControlPoint.target
    (BezierApp.p1
       (BezierApp.handleMotion
          (BezierApp.mkMotion (Some (BezierApp.mkRate None (Some 5))))
          (BezierApp.switchMode BezierApp.new)))
  = Vector2.new
      (clamp 50 750
         (BezierApp.target_x P1 (BezierApp.switchMode BezierApp.new) + 8 * 5))
      (clamp 50 450
         (BezierApp.target_y P1 (BezierApp.switchMode BezierApp.new) + 8 * 0)).
Proof.
  exact (proj1 (rotation_steering (BezierApp.mkRate None (Some 5))
                  (BezierApp.switchMode BezierApp.new) eq_refl eq_refl)).
Defined.

(** The two steering inputs exclude each other -- In mouse mode a device
    motion event changes nothing, and neither does one without a rotation
    rate in any mode.  In motion mode a mouse move without a drag records
    the pointer position and nothing else.  Switching the mode twice gives
    the state back, and a switch touches no control point and drops no
    drag. *)
Theorem mode_gating (s : BezierApp.t) :
  (BezierApp.mode s = BezierApp.mouse ->
   forall e, BezierApp.handleMotion e s = s)
  /\ BezierApp.handleMotion (BezierApp.mkMotion None) s = s
  /\ (BezierApp.mode s = BezierApp.motion ->
      BezierApp.dragged s = None ->
      forall rect e,
        BezierApp.mouseMove rect e s
        = BezierApp.set_mousePos s (pointer rect e))
  /\ BezierApp.switchMode (BezierApp.switchMode s) = s
  /\ BezierApp.mode (BezierApp.switchMode s) <> BezierApp.mode s
  /\ BezierApp.curve (BezierApp.switchMode s) = BezierApp.curve s
  /\ BezierApp.dragged (BezierApp.switchMode s) = BezierApp.dragged s.
Proof.
  split; [| split; [| split; [| split; [| split; [| split]]]]].
  - intros Hm e. unfold BezierApp.handleMotion. rewrite Hm. reflexivity.
  - unfold BezierApp.handleMotion. destruct (BezierApp.mode s); reflexivity.
  - intros Hm Hd rect e. unfold BezierApp.mouseMove. cbv zeta.
    cbn [BezierApp.dragged BezierApp.set_mousePos BezierApp.mode].
    rewrite Hd, Hm. rewrite copy_id. reflexivity.
  - apply switchMode_twice.
  - unfold BezierApp.switchMode. cbn [BezierApp.mode BezierApp.set_mode].
    destruct (BezierApp.mode s); discriminate.
  - reflexivity.
  - reflexivity.
Qed.

(* ================================================================= *)
(** ** Drawing *)

Section Drawing.

Variable atan2 : R -> R -> R.

(** The two ways [draw] ends, with the calls it has made. *)
Lemma draw_empty (bc : BezierCurve.t) :
  BezierCurve.curve bc = [] ->
  BezierCurve.draw atan2 bc = Canvas.TypeError (control_polygon bc).
Proof.
  intros E. unfold BezierCurve.draw. rewrite E. reflexivity.
Qed.

Lemma draw_nonempty (bc : BezierCurve.t) (first : Vector2.t)
  (rest : list Vector2.t) :
  BezierCurve.curve bc = first :: rest ->
  BezierCurve.draw atan2 bc
  = Canvas.Returned
      (control_polygon bc ++ polyline first rest ++ decorations atan2 bc).
Proof.
  intros E. unfold BezierCurve.draw. rewrite E. cbv zeta. f_equal.
  unfold control_polygon, polyline, decorations.
  cbn [app map flat_map Points.ids Points.get].
  rewrite app_nil_r, <- !app_assoc. cbn [app].
  reflexivity.
Qed.

(** The samples a frame leaves: 101 of them, the first at [(160, 250)],
    and 11 markers. *)
Lemma frame_curve_shape (evs : list BezierApp.Event) (timestamp : R) :
  let bc := BezierApp.curve
              (BezierApp.loop timestamp (BezierApp.run evs BezierApp.new)) in
  exists rest : list Vector2.t,
    BezierCurve.curve bc = Vector2.new 160 250 :: rest
    /\ List.length rest = 100%nat
    /\ List.length (BezierCurve.tangents bc) = 11%nat.
Proof.
  intros bc. subst bc.
  set (s0 := BezierApp.run evs BezierApp.new).
  set (s := BezierApp.loop timestamp s0).
  pose proof (sane_run evs BezierApp.new sane_new) as Hs0. fold s0 in Hs0.
  pose proof (sane_loop timestamp s0 Hs0) as Hs. fold s in Hs.
  destruct Hs0 as (_ & Hn & _).
  destruct Hs as (_ & _ & H0 & _).
  destruct (loop_curve timestamp s0 Hn) as [Hc Ht]. fold s in Hc, Ht.
  exists (map (fun i => BezierCurve.calculatePoint (BezierApp.curve s)
                          (INR i / 100))
              (seq 1 100)).
  split; [| split; [| exact Ht]].
  - rewrite Hc. change (seq 0 101) with (0%nat :: seq 1 100).
    cbn [map]. f_equal.
    replace (INR 0 / 100) with 0 by (simpl; lra).
    apply vector2_ext; rewrite ?calculatePoint_x, ?calculatePoint_y;
      change (BezierCurve.pos (BezierApp.curve s) P0)
        with (ControlPoint.position (BezierApp.p0 s));
      rewrite H0; simpl; lra.
  - rewrite length_map, length_seq. reflexivity.
Qed.

End Drawing.

(** [draw] needs samples -- [BezierCurve.draw] throws a [TypeError] exactly
    when [this.curve] is empty, and it has then made the thirteen calls of
    the dashed control polygon and of the setup of the curve path, and no
    other.  With samples [first :: rest] it returns after those calls, the
    polyline from [first] through [rest], the arrows and the four control
    points.  The curve of a freshly constructed app has no samples, so
    drawing it throws.  [loop] calls [update] before it draws: in the state
    a frame leaves, whatever events came before, there are 101 samples, the
    first at [(160, 250)], and 11 markers, and [draw] returns. *)
Theorem draw_needs_samples (atan2 : R -> R -> R) (bc : BezierCurve.t) :
  (BezierCurve.curve bc = [] <->
   BezierCurve.draw atan2 bc = Canvas.TypeError (control_polygon bc))
  /\ (BezierCurve.curve bc = [] <->
      exists calls, BezierCurve.draw atan2 bc = Canvas.TypeError calls)
  /\ (forall (first : Vector2.t) (rest : list Vector2.t),
        BezierCurve.curve bc = first :: rest ->
        BezierCurve.draw atan2 bc
        = Canvas.Returned
            (control_polygon bc ++ polyline first rest
             ++ decorations atan2 bc))
  /\ BezierCurve.draw atan2 (BezierApp.curve BezierApp.new)
     = Canvas.TypeError
         [ Canvas.strokeStyle "rgba(100, 255, 218, 0.3)"%string;
           Canvas.lineWidth 1;
           Canvas.setLineDash [5; 3];
           Canvas.beginPath;
           Canvas.moveTo (800 * 0.2) (500 * 0.5);
           Canvas.lineTo (800 * 0.4) (500 * 0.3);
           Canvas.lineTo (800 * 0.6) (500 * 0.7);
           Canvas.lineTo (800 * 0.8) (500 * 0.5);
           Canvas.stroke;
           Canvas.setLineDash [];
           Canvas.strokeStyle "#64ffda"%string;
           Canvas.lineWidth 3;
           Canvas.beginPath ]
  /\ (forall (evs : list BezierApp.Event) (timestamp : R),
        let bc' :=
          BezierApp.curve
            (BezierApp.loop timestamp (BezierApp.run evs BezierApp.new)) in
        exists rest : list Vector2.t,
          BezierCurve.curve bc' = Vector2.new 160 250 :: rest
          /\ List.length rest = 100%nat
          /\ List.length (BezierCurve.tangents bc') = 11%nat
          /\ BezierCurve.draw atan2 bc'
             = Canvas.Returned
                 (control_polygon bc'
                  ++ polyline (Vector2.new 160 250) rest
                  ++ decorations atan2 bc')).
Proof.
  assert (T : forall calls,
             BezierCurve.draw atan2 bc = Canvas.TypeError calls ->
             BezierCurve.curve bc = []).
  { intros calls H.
    destruct (BezierCurve.curve bc) as [| first rest] eqn:E;
      [reflexivity |].
    rewrite (draw_nonempty atan2 bc first rest E) in H. discriminate H. }
  split; [| split; [| split; [| split]]].
  - split; [apply draw_empty | apply T].
  - split.
    + intros E. exists (control_polygon bc). apply draw_empty, E.
    + intros [calls H]. apply (T calls H).
  - intros first rest. apply draw_nonempty.
  - reflexivity.
  - intros evs timestamp bc'.
    destruct (frame_curve_shape evs timestamp) as (rest & Hc & Hl & Ht).
    fold bc' in Hc, Ht.
    exists rest. repeat split; try assumption.
    apply draw_nonempty, Hc.
Qed.
